(** * Knowledge-base retrieval and grounding tools: a shallow embedding

    This development embeds the functions of [app/backend/ragtools.py] and
    states the properties of the retrieval and grounding subsystem over
    them.  Python [str] values are [string]s over the 8-bit characters of
    [ascii], Python [int]s are [Z], lengths and loop counters that Python
    keeps non-negative are converted explicitly, and a raised exception is
    a value of [result].  The [print] calls of the source write to the
    console only and are left out. *)

From Stdlib Require Import ZArith Lia Bool Ascii String DecimalString.
From Stdlib Require Import DecimalFacts DecimalNat.
From stdpp Require Import base option list gmap strings.

Local Open Scope string_scope.
Local Open Scope Z_scope.

(** ** Python values, exceptions and results *)

Module Py.

(** The exceptions the embedded functions can raise on their own. *)
Inductive exn : Type :=
| ValueError
| IndexError
| UnboundLocalError (name : string).

(** [UnboundLocalError] is a subclass of [NameError]. *)
Definition is_NameError (e : exn) : bool :=
  match e with
  | UnboundLocalError _ => true
  | _ => false
  end.

Inductive result (A : Type) : Type :=
| Ok (a : A)
| Raise (e : exn).
Arguments Ok {A} a.
Arguments Raise {A} e.

(** Sequencing: the first exception raised ends the computation. *)
#[global] Instance result_ret : MRet result := fun A a => Ok a.
#[global] Instance result_bind : MBind result := fun A B k r =>
  match r with
  | Ok a => k a
  | Raise e => Raise e
  end.

(** The scalars that occur in the policy inputs: what [os.getenv] returns
    ([str] or [None]) and the literals of the call sites. *)
Inductive value : Type :=
| Str (s : string)
| Int (z : Z)
| None_.

(** Nested [dict] and [list] literals; a [dict] keeps its insertion order. *)
#[warnings="-register-all"]
Inductive json : Type :=
| JVal (v : value)
| JList (l : list json)
| JDict (d : list (string * json)).

(** [d[key]] on a dict literal, [None] when the key is absent or the
    value is no dict. *)
Fixpoint assoc (key : string) (d : list (string * json)) : option json :=
  match d with
  | [] => None
  | (k, v) :: d' => if String.eqb k key then Some v else assoc key d'
  end.

Definition dict_get (key : string) (j : json) : option json :=
  match j with
  | JDict d => assoc key d
  | _ => None
  end.

(** [len(s)] *)
Definition len (s : string) : Z := Z.of_nat (String.length s).

(** A slice bound brought into [0, len]: negative bounds count from the
    end, as Python's [PySlice_AdjustIndices] does for step 1. *)
Definition adjust (n k : Z) : Z :=
  if k <? 0 then Z.max 0 (k + n) else Z.min k n.

(** [s[lo:hi]] *)
Definition slice (s : string) (lo hi : Z) : string :=
  let l := adjust (len s) lo in
  let h := adjust (len s) hi in
  substring (Z.to_nat l) (Z.to_nat (h - l)) s.

(** [s[:hi]] *)
Definition slice_to (s : string) (hi : Z) : string := slice s 0 hi.

(** [str(n)] for a non-negative loop index. *)
Definition str_of_nat (n : nat) : string :=
  NilZero.string_of_uint (Nat.to_uint n).

(** [f"{v}"] *)
Definition format_value (v : value) : string :=
  match v with
  | Str s => s
  | Int z => NilZero.string_of_int (Z.to_int z)
  | None_ => "None"
  end.

(** Characters below 256 for which [str.isspace] holds: the ASCII
    whitespace, the separators 0x1c-0x1f, NEL and the no-break space. *)
Definition is_space (c : ascii) : bool :=
  let n := nat_of_ascii c in
  ((9 <=? n) && (n <=? 13) || (28 <=? n) && (n <=? 32)
   || (n =? 133) || (n =? 160))%nat.

Fixpoint all_space (s : string) : bool :=
  match s with
  | EmptyString => true
  | String c s' => is_space c && all_space s'
  end.

(** [s.isspace()]: every character is whitespace and there is at least one. *)
Definition isspace (s : string) : bool :=
  match s with
  | EmptyString => false
  | _ => all_space s
  end.

(** [s.lstrip()] *)
Fixpoint lstrip (s : string) : string :=
  match s with
  | EmptyString => EmptyString
  | String c s' => if is_space c then lstrip s' else s
  end.

(** [s.rstrip()] *)
Fixpoint rstrip (s : string) : string :=
  match s with
  | EmptyString => EmptyString
  | String c s' =>
      match rstrip s' with
      | EmptyString => if is_space c then EmptyString else String c EmptyString
      | r => String c r
      end
  end.

(** [s.strip()] *)
Definition strip (s : string) : string := rstrip (lstrip s).

(** Truthiness of a string: [not s] is [true] exactly for the empty one. *)
Definition not_ (s : string) : bool :=
  match s with
  | EmptyString => true
  | _ => false
  end.

(** [s.endswith(suffix)] *)
Definition endswith (s suffix : string) : bool :=
  let n := String.length s in
  let m := String.length suffix in
  (m <=? n)%nat && String.eqb (substring (n - m) m s) suffix.

(** The body of a [for i in range(start, stop, step)] iteration: the
    indices visited, [fuel] bounding the number of steps. *)
Fixpoint range_loop (fuel : nat) (i stop step : Z) : list Z :=
  match fuel with
  | O => []
  | S fuel' =>
      if (if 0 <? step then i <? stop else stop <? i)
      then i :: range_loop fuel' (i + step) stop step
      else []
  end.

(** [range(start, stop, step)]; a zero step raises [ValueError].  No
    range has more than [|stop - start|] elements. *)
Definition range (start stop step : Z) : result (list Z) :=
  if step =? 0 then Raise ValueError
  else Ok (range_loop (Z.to_nat (Z.abs (stop - start))) start stop step).

(** A [for] loop whose body can raise: the loop variable runs over [xs],
    the state [s] is what the body assigns. *)
Fixpoint for_ {S X : Type} (xs : list X) (body : S -> X -> result S) (s : S)
  : result S :=
  match xs with
  | [] => Ok s
  | x :: xs' => s' ← body s x; for_ xs' body s'
  end.

(** [xs[0]] *)
Definition item0 {A : Type} (xs : list A) : result A :=
  match xs with
  | x :: _ => Ok x
  | [] => Raise IndexError
  end.

(** The line feed and the double quote, which have no escape in a string
    literal here. *)
Definition nl : string := String "010" EmptyString.
Definition dq : string := String "034" EmptyString.

(** [''.join(parts)] *)
Definition join (parts : list string) : string := foldr String.append "" parts.

(** [os.path.join(a, b)] on a POSIX system. *)
Definition path_join (a b : string) : string :=
  if String.prefix "/" b then b
  else if not_ a || endswith a "/" then a ++ b
  else a ++ "/" ++ b.

(** [os.getenv(name)] over the process environment. *)
Definition getenv (environ : gmap string string) (name : string) : value :=
  match environ !! name with
  | Some v => Str v
  | None => None_
  end.

(** [enumerate(xs)] *)
Definition enumerate {A : Type} (xs : list A) : list (nat * A) :=
  imap (fun i x => (i, x)) xs.

End Py.

Import Py.

(** ** Text chunking *)

(** [chunk_text(text, chunk_size)]:
    [[text[i:i + chunk_size] for i in range(0, len(text), chunk_size)]] *)
Definition chunk_text (text : string) (chunk_size : Z) : result (list string) :=
  idx ← range 0 (len text) chunk_size;
  Ok (map (fun i => slice text i (i + chunk_size)) idx).

Definition chunk_size_default : Z := 1000.

(** The splitter contract in the words of the specification, for a text,
    a chunk size [C], an overlap [O] and the segments produced: the number
    of segments, their lengths, the [O] characters consecutive segments
    share, and the text recovered by dropping the overlaps. *)
Definition ceil_div (a b : Z) : Z := - ((- a) / b).

Definition shares (O : Z) (a b : string) : Prop :=
  O <= len a /\ O <= len b /\ slice a (len a - O) (len a) = slice b 0 O.

Definition reassemble (O : Z) (segs : list string) : string :=
  match segs with
  | [] => ""
  | s :: rest => s ++ join (map (fun t => slice t O (len t)) rest)
  end.

Definition overlap_split (text : string) (C O : Z) (segs : list string) : Prop :=
  (0 < len text -> Z.of_nat (length segs) = ceil_div (len text - O) (C - O))
  /\ Forall (fun s => 0 < len s <= C) segs
  /\ (forall (k : nat) (a b : string),
        segs !! k = Some a -> segs !! S k = Some b -> shares O a b)
  /\ reassemble O segs = text
  /\ (text = "" -> segs = []).

(** ** Documents and ingestion *)

(** A langchain [Document]: its text and its metadata dict. *)
Record Document : Type := {
  page_content : string;
  metadata : gmap string string
}.

(** The document's source title, [metadata["title"]]. *)
Definition title (doc : Document) : option string := metadata doc !! "title".

(** What ingestion reads from outside: the directory listing and the PDF
    loader with its text splitter
    ([PDFPlumberLoader(filepath).load_and_split(CharacterTextSplitter(
    chunk_size, chunk_overlap))]). *)
Record Loader : Type := {
  listdir : string -> list string;
  load_and_split : string -> Z -> Z -> list Document
}.

(** [doc.metadata = {"title": f"{filename}_chunk_{i}"}] *)
Definition set_title (filename : string) (i : nat) (doc : Document) : Document :=
  {| page_content := page_content doc;
     metadata := {[ "title" := filename ++ "_chunk_" ++ str_of_nat i ]} |}.

(** [add_pdf_documents(pdf_dir, chunk_size)] *)
Definition add_pdf_documents (io : Loader) (pdf_dir : string) (chunk_size : Z)
  : list Document :=
  foldl (fun documents filename =>
    if endswith filename ".pdf" then
      let filepath := path_join pdf_dir filename in
      let loaded_documents := load_and_split io filepath chunk_size 250 in
      foldl (fun documents '(i, doc) => (documents ++ [set_title filename i doc])%list)
            documents (enumerate loaded_documents)
    else documents)
  [] (listdir io pdf_dir).

(** ** Regular expressions *)

Module Re.

(** The pattern elements the grounding filter uses: [^], [$] and a
    character class under [+]. *)
Inductive atom : Type :=
| Bol
| Eol
| Plus (cls : ascii -> bool).

Definition in_range (lo hi c : ascii) : bool :=
  ((nat_of_ascii lo <=? nat_of_ascii c) && (nat_of_ascii c <=? nat_of_ascii hi))%nat.

(** One or more characters of [cls], then [k] on the rest; the longest
    run is tried first and shorter ones on failure. *)
Fixpoint plus (cls : ascii -> bool) (s : string) (k : string -> bool) : bool :=
  match s with
  | EmptyString => false
  | String c s' => cls c && (plus cls s' k || k s')
  end.

(** [$] without [re.MULTILINE]: the end of the string, or just before a
    line feed that ends the string. *)
Definition at_eol (s : string) : bool :=
  match s with
  | EmptyString => true
  | String c EmptyString => Ascii.eqb c "010"
  | _ => false
  end.

(** Matching a pattern against the rest [s] of the subject; [at_start]
    tells whether [s] is the whole subject.  As [re.match] does, the
    match need not reach the end of the subject. *)
Fixpoint matches (p : list atom) (at_start : bool) (s : string) : bool :=
  match p with
  | [] => true
  | Bol :: p' => at_start && matches p' at_start s
  | Eol :: p' => at_eol s && matches p' at_start s
  | Plus cls :: p' => plus cls s (fun rest => matches p' false rest)
  end.

(** Truthiness of [re.match(p, s)]. *)
Definition match_ (p : list atom) (s : string) : bool := matches p true s.

End Re.

(** ** The tools *)

(** The vector store as the tools use it: [similarity_search(query)]. *)
Record VectorStore : Type := {
  similarity_search : string -> list Document
}.

(** Modelled from the spec: the [ToolResult] and [ToolResultDirection]
    declarations of the middleware module [rtmt], a payload text with the
    direction it is sent in; [TO_SERVER] feeds the payload back to the
    model only. *)
Inductive ToolResultDirection : Type :=
| TO_SERVER
| TO_CLIENT.

Record ToolResult : Type := {
  payload : string;
  direction : ToolResultDirection
}.

(** The arguments of the two tools, shaped by their schemas: [query] is a
    required string, [sources] a required array of strings. *)
Record SearchArgs : Type := { query : string }.
Record GroundingArgs : Type := { sources : list string }.

(** [vector_search(query, vector_store)] *)
Definition vector_search (query : string) (vector_store : VectorStore)
  : list Document :=
  similarity_search vector_store query.

(** [doc.page_content[:2000] if len(doc.page_content) > 2000 else doc.page_content] *)
Definition truncated_content (doc : Document) : string :=
  if 2000 <? len (page_content doc)
  then slice_to (page_content doc) 2000
  else page_content doc.

(** [f"[doc_{i}]: Content: {truncated_content}\n-----\n"] *)
Definition search_entry (i : nat) (doc : Document) : string :=
  "[doc_" ++ str_of_nat i ++ "]: Content: " ++ truncated_content doc
    ++ nl ++ "-----" ++ nl.

(** The formatting loop of [_search_tool]. *)
Definition search_result_str (results : list Document) : string :=
  foldl (fun result_str '(i, doc) => result_str ++ search_entry i doc)
        "" (enumerate results).

(** [if not result_str or result_str.isspace(): result_str = "1"] *)
Definition or_sentinel (result_str : string) : string :=
  if not_ result_str || isspace result_str then "1" else result_str.

(** [_search_tool(vector_store, args)] *)
Definition _search_tool (vector_store : VectorStore) (args : SearchArgs)
  : ToolResult :=
  let results := vector_search (query args) vector_store in
  let result_str := or_sentinel (search_result_str results) in
  {| payload := result_str; direction := TO_SERVER |}.

(** [r'^[a-zA-Z0-9_=\-]+$'] *)
Definition source_class (c : ascii) : bool :=
  Re.in_range "a" "z" c || Re.in_range "A" "Z" c || Re.in_range "0" "9" c
  || Ascii.eqb c "_" || Ascii.eqb c "=" || Ascii.eqb c "-".

Definition source_pattern : list Re.atom :=
  [Re.Bol; Re.Plus source_class; Re.Eol].

(** [[s for s in sources if re.match(r'^[a-zA-Z0-9_=\-]+$', s)]] *)
Definition valid_sources (sources : list string) : list string :=
  filter (fun s => Re.match_ source_pattern s = true) sources.

(** An element of [search_results]: [{"content": ..., "metadata": doc}]. *)
Record SearchResult : Type := {
  content : string;
  metadata_doc : Document
}.

(** The collecting loop of [_report_grounding_tool]. *)
Definition grounding_search_results (vector_store : VectorStore)
  (valid : list string) : list SearchResult :=
  foldl (fun search_results source =>
    let docs := similarity_search vector_store source in
    foldl (fun search_results doc =>
      (search_results ++ [{| content := page_content doc; metadata_doc := doc |}])%list)
      search_results docs)
  [] valid.

(** [f"[{result['content'][:200]}...\n-----\n"] *)
Definition grounding_entry (result : SearchResult) : string :=
  "[" ++ slice_to (content result) 200 ++ "..." ++ nl ++ "-----" ++ nl.

(** The formatting loop of [_report_grounding_tool]. *)
Definition grounding_result_str (search_results : list SearchResult) : string :=
  foldl (fun result_str result => result_str ++ grounding_entry result)
        "" search_results.

(** [_report_grounding_tool(vector_store, args)] *)
Definition _report_grounding_tool (vector_store : VectorStore)
  (args : GroundingArgs) : ToolResult :=
  let valid := valid_sources (sources args) in
  let search_results := grounding_search_results vector_store valid in
  let result_str := or_sentinel (grounding_result_str search_results) in
  {| payload := strip result_str; direction := TO_SERVER |}.

(** The allow-list in the words of the specification: the whole string
    is one or more characters of the class. *)
Fixpoint all_chars (cls : ascii -> bool) (s : string) : bool :=
  match s with
  | EmptyString => true
  | String c s' => cls c && all_chars cls s'
  end.

Definition allow_listed (s : string) : bool :=
  negb (not_ s) && all_chars source_class s.

(** ** Provisioning policies *)

(** [get_vector_indexing_policy(embedding_path, embedding_type)].  The
    local [vectorIndexes] is unbound ([None]) until the loop body runs. *)
Definition get_vector_indexing_policy (embedding_path embedding_type : list value)
  : result json :=
  idx ← range 0 (Z.of_nat (length embedding_type)) 1;
  vectorIndexes ← for_ idx (fun (_ : option (list json)) (i : Z) =>
    let vectorIndexes : list json := [] in
    p ← item0 embedding_path;
    t ← item0 embedding_type;
    let vectorIndex := JDict [("path", JVal p); ("type", JVal (Str (format_value t)))] in
    mret (Some (vectorIndexes ++ [vectorIndex])%list)) None;
  match vectorIndexes with
  | None => Raise (UnboundLocalError "vectorIndexes")
  | Some vectorIndexes =>
      mret (JDict [("indexingMode", JVal (Str "consistent"));
                   ("includedPaths", JList [JDict [("path", JVal (Str "/*"))]]);
                   ("excludedPaths",
                    JList [JDict [("path", JVal (Str ("/" ++ dq ++ "_etag" ++ dq ++ "/?")))]]);
                   ("vectorIndexes", JList vectorIndexes)])
  end.

(** [get_vector_embedding_policy(embedding_path, distance_function,
    data_type, dimensions)] *)
Definition get_vector_embedding_policy
  (embedding_path distance_function data_type dimensions : list value)
  : result json :=
  idx ← range 0 (Z.of_nat (length distance_function)) 1;
  vectorEmbeddings ← for_ idx (fun (_ : option (list json)) (i : Z) =>
    let vectorEmbeddings : list json := [] in
    p ← item0 embedding_path;
    dt ← item0 data_type;
    dim ← item0 dimensions;
    df ← item0 distance_function;
    let vectorEmbedding :=
      JDict [("path", JVal p);
             ("dataType", JVal (Str (format_value dt)));
             ("dimensions", JVal dim);
             ("distanceFunction", JVal (Str (format_value df)))] in
    mret (Some (vectorEmbeddings ++ [vectorEmbedding])%list)) None;
  match vectorEmbeddings with
  | None => Raise (UnboundLocalError "vectorEmbeddings")
  | Some vectorEmbeddings =>
      mret (JDict [("vectorEmbeddings", JList vectorEmbeddings)])
  end.

(** ** Attaching the tools *)

(** The vector store's side of [from_documents]: the container is
    partitioned by [/id] and holds one item per id; the ingestion code
    passes documents without an id, so the id under which a document is
    written is the store's choice, made from the container and the
    document. *)
Record Backend : Type := {
  new_id : gmap string Document -> Document -> string
}.

(** [AzureCosmosDBNoSqlVectorSearch.from_documents(documents, ...)]: the
    documents are written one by one. *)
Definition from_documents (backend : Backend) (documents : list Document)
  (container : gmap string Document) : gmap string Document :=
  foldl (fun container doc => <[new_id backend container doc := doc]> container)
        container documents.

(** What [attach_rag_tools_cosmosdb] builds before it registers the tools. *)
Record Attached : Type := {
  indexing_policy : json;
  vector_embedding_policy : json;
  vector_store_items : gmap string Document
}.

(** [attach_rag_tools_cosmosdb(rtmt, cosmosdb_uri, cosmosdb_key, pdf_dir)],
    up to the registration of the two tools. *)
Definition attach_rag_tools_cosmosdb (backend : Backend) (io : Loader)
  (environ : gmap string string) (pdf_dir : string)
  (container : gmap string Document) : result Attached :=
  let cosmos_db_vector_embedding_type :=
    getenv environ "COSMOSDB_VECTOR_EMBEDDINGS_TYPE" in
  indexing_policy ← get_vector_indexing_policy
    [Str "/embedding"] [cosmos_db_vector_embedding_type];
  vector_embedding_policy ← get_vector_embedding_policy
    [Str "/embedding"] [Str "cosine"] [Str "float32"] [Int 1536];
  let documents := add_pdf_documents io pdf_dir chunk_size_default in
  let vector_store := from_documents backend documents container in
  mret {| indexing_policy := indexing_policy;
          vector_embedding_policy := vector_embedding_policy;
          vector_store_items := vector_store |}.

(** A store that writes every document under an id it has not used yet. *)
Definition counting_backend : Backend :=
  {| new_id := fun container _ => str_of_nat (size container) |}.

(** A store that writes every document under an id the container does not
    hold, whatever the container. *)
Definition fresh_backend : Backend :=
  {| new_id := fun container _ => fresh (dom container) |}.

(** A store that writes every document under its title. *)
Definition title_backend : Backend :=
  {| new_id := fun _ doc => default "" (title doc) |}.
(** ** The application entry point *)

(** What the main block of [app/backend/app.py] passes to the middleware
    as credential: an [AzureKeyCredential] built from a key, or the
    [DefaultAzureCredential]. *)
Inductive Credential : Type :=
| DefaultAzureCredential
| AzureKeyCredential (key : value).

(** Truthiness of a value: [None], the empty string and zero are false. *)
Definition truth (v : value) : bool :=
  match v with
  | Str s => negb (not_ s)
  | Int z => negb (z =? 0)
  | None_ => false
  end.

(** The third argument of [RTMiddleTier(...)] in the main block; [None]
    stands for Python's [None].
    [[credentials = DefaultAzureCredential() if not llm_key else None]]
    [[AzureKeyCredential(llm_key) if llm_key else credentials]] *)
Definition main_credential (environ : gmap string string) : option Credential :=
  let llm_key := getenv environ "AZURE_OPENAI_API_KEY" in
  let credentials :=
    if negb (truth llm_key) then Some DefaultAzureCredential else None in
  if truth llm_key then Some (AzureKeyCredential llm_key) else credentials.

(** ** Sample inputs *)

(** An empty knowledge base. *)
Definition empty_store : VectorStore :=
  {| similarity_search := fun _ => [] |}.

(** A knowledge base that answers every query with one passage. *)
Definition manual_store : VectorStore :=
  {| similarity_search := fun _ =>
       [{| page_content := "Install the unit.";
           metadata := {[ "title" := "manual.pdf_chunk_1" ]} |}] |}.

(** A directory with the one file "manual.pdf" of 2500 characters, read
    by a loader that cuts the text with [chunk_text]. *)
Fixpoint repeat_char (c : ascii) (n : nat) : string :=
  match n with
  | O => EmptyString
  | S n' => String c (repeat_char c n')
  end.

Definition manual_loader : Loader :=
  {| listdir := fun _ => ["manual.pdf"];
     load_and_split := fun _ chunk_size _ =>
       match chunk_text (repeat_char "x" 2500) chunk_size with
       | Ok segs => map (fun s => {| page_content := s; metadata := ∅ |}) segs
       | Raise _ => []
       end |}.


(** A directory with a PDF file and a text file, read by a loader that
    returns one chunk per file and records the page in its metadata; and
    the same loader made to return nothing for paths that are no PDF. *)
Definition paged_loader : Loader :=
  {| listdir := fun _ => ["a.pdf"; "notes.txt"];
     load_and_split := fun path _ _ =>
       [{| page_content := path; metadata := {[ "page" := "0" ]} |}] |}.

Definition paged_loader_pdf : Loader :=
  {| listdir := listdir paged_loader;
     load_and_split := fun path chunk_size overlap =>
       if endswith path ".pdf"
       then load_and_split paged_loader path chunk_size overlap
       else [] |}.

(** A process environment that selects the DiskANN index. *)
Definition diskann_environ : gmap string string :=
  {[ "COSMOSDB_VECTOR_EMBEDDINGS_TYPE" := "diskANN" ]}.

(** * Properties *)

(** ** Strings and slices *)

Section Strings.

Local Open Scope nat_scope.

Lemma substring_zero_length (n : nat) (s : string) : substring n 0 s = "".
Proof.
  revert n; induction s as [|c s IH]; intros [|n]; simpl; auto.
Qed.

Lemma substring_length (s : string) (n m : nat) :
  String.length (substring n m s) = Nat.min m (String.length s - n).
Proof.
  revert n m; induction s as [|c s IH]; intros [|n] [|m]; simpl; auto;
    rewrite IH; simpl; rewrite ?Nat.sub_0_r; reflexivity.
Qed.

Lemma substring_all (s : string) (m : nat) :
  String.length s <= m -> substring 0 m s = s.
Proof.
  revert m; induction s as [|c s IH]; intros [|m] H; simpl in *; auto; try lia.
  rewrite IH by lia. reflexivity.
Qed.

Lemma substring_split (s : string) (n a b : nat) :
  substring n (a + b) s = (substring n a s ++ substring (n + a) b s)%string.
Proof.
  revert n a; induction s as [|c s IH]; intros n a.
  - destruct n, a, b; reflexivity.
  - destruct n as [|n].
    + destruct a as [|a]; simpl.
      * reflexivity.
      * rewrite IH. reflexivity.
    + simpl. apply IH.
Qed.

Lemma append_cons (c : ascii) (a b : string) :
  (String c a ++ b)%string = String c (a ++ b).
Proof. reflexivity. Qed.

Lemma append_nil_l (b : string) : ("" ++ b)%string = b.
Proof. reflexivity. Qed.

Lemma append_length (a b : string) :
  String.length (a ++ b) = String.length a + String.length b.
Proof.
  induction a as [|c a IH]; [reflexivity|].
  rewrite append_cons. simpl. rewrite IH. reflexivity.
Qed.

Lemma append_nil_r (a : string) : (a ++ "")%string = a.
Proof.
  induction a as [|c a IH]; [reflexivity|].
  rewrite append_cons, IH. reflexivity.
Qed.

Lemma append_assoc (a b c : string) :
  ((a ++ b) ++ c)%string = (a ++ (b ++ c))%string.
Proof.
  induction a as [|x a IH]; [reflexivity|].
  rewrite !append_cons, IH. reflexivity.
Qed.

End Strings.

Lemma len_nonneg (s : string) : 0 <= len s.
Proof. unfold len. lia. Qed.

Lemma len_empty (s : string) : len s = 0 -> s = "".
Proof. destruct s; [reflexivity | unfold len; simpl; lia]. Qed.

(** A slice with bounds already inside the string. *)
Lemma slice_inside (s : string) (lo hi : Z) :
  0 <= lo -> 0 <= hi ->
  slice s lo hi =
    substring (Z.to_nat (Z.min lo (len s)))
              (Z.to_nat (Z.min hi (len s) - Z.min lo (len s))) s.
Proof.
  intros Hlo Hhi. unfold slice, adjust.
  destruct (Z.ltb_spec lo 0); [lia|].
  destruct (Z.ltb_spec hi 0); [lia|].
  reflexivity.
Qed.

Lemma slice_len (s : string) (lo hi : Z) :
  0 <= lo -> 0 <= hi ->
  len (slice s lo hi) = Z.max 0 (Z.min hi (len s) - Z.min lo (len s)).
Proof.
  intros Hlo Hhi. rewrite slice_inside by assumption.
  unfold len. rewrite substring_length. lia.
Qed.

Lemma slice_whole (s : string) : slice s 0 (len s) = s.
Proof.
  pose proof (len_nonneg s).
  rewrite slice_inside by lia.
  replace (Z.to_nat (Z.min 0 (len s))) with 0%nat by lia.
  apply substring_all. unfold len. lia.
Qed.

Lemma slice_empty (s : string) (lo : Z) : 0 <= lo -> slice s lo lo = "".
Proof.
  intros H. rewrite slice_inside by lia.
  rewrite Z.sub_diag. apply substring_zero_length.
Qed.

(** [s[:n]] is the prefix of [s] of at most [n] characters. *)
Lemma slice_to_prefix (s : string) (n : nat) :
  slice_to s (Z.of_nat n) = substring 0 n s.
Proof.
  unfold slice_to. pose proof (len_nonneg s).
  rewrite slice_inside by lia.
  replace (Z.min 0 (len s)) with 0 by lia.
  rewrite Z.sub_0_r. simpl Z.to_nat.
  destruct (Z.le_gt_cases (Z.of_nat n) (len s)).
  - rewrite Z.min_l by lia. rewrite Nat2Z.id. reflexivity.
  - rewrite Z.min_r by lia. unfold len in *. rewrite Nat2Z.id.
    rewrite !substring_all by lia. reflexivity.
Qed.

Lemma join_app (xs ys : list string) :
  join (xs ++ ys) = (join xs ++ join ys)%string.
Proof.
  induction xs as [|x xs IH]; simpl; [reflexivity|].
  rewrite IH, append_assoc. reflexivity.
Qed.

(** A loop that appends one piece per element builds the join of the pieces. *)
Lemma foldl_append {X : Type} (f : X -> string) (xs : list X) (acc : string) :
  foldl (fun r x => (r ++ f x)%string) acc xs = (acc ++ join (map f xs))%string.
Proof.
  revert acc; induction xs as [|x xs IH]; intros acc; simpl.
  - rewrite append_nil_r. reflexivity.
  - rewrite IH, append_assoc. reflexivity.
Qed.

(** A loop that appends one element per step builds the mapped list. *)
Lemma foldl_snoc {X Y : Type} (f : X -> Y) (xs : list X) (acc : list Y) :
  foldl (fun r x => (r ++ [f x])%list) acc xs = (acc ++ map f xs)%list.
Proof.
  revert acc; induction xs as [|x xs IH]; intros acc; simpl.
  - rewrite app_nil_r. reflexivity.
  - rewrite IH, <- app_assoc. reflexivity.
Qed.

(** ** Ranges *)

Lemma ceil_div_bounds (a b : Z) :
  0 < b -> (ceil_div a b - 1) * b < a <= ceil_div a b * b.
Proof.
  intros Hb. unfold ceil_div.
  pose proof (Z.div_mod (- a) b ltac:(lia)) as Hdm.
  pose proof (Z.mod_pos_bound (- a) b Hb) as Hmod.
  nia.
Qed.

Lemma ceil_div_unique (a b q : Z) :
  0 < b -> (q - 1) * b < a <= q * b -> ceil_div a b = q.
Proof.
  intros Hb Hq. pose proof (ceil_div_bounds a b Hb). nia.
Qed.

Section Range.

Variables (stop step : Z).
Hypothesis step_pos : 0 < step.

Lemma range_loop_unfold (fuel : nat) (i : Z) :
  range_loop (S fuel) i stop step =
    if i <? stop then i :: range_loop fuel (i + step) stop step else [].
Proof.
  simpl. destruct (Z.ltb_spec 0 step); [reflexivity | lia].
Qed.

(** With enough fuel the loop visits [ceil((stop - i) / step)] indices. *)
Lemma range_loop_length (fuel : nat) (i : Z) :
  (Z.to_nat (stop - i) <= fuel)%nat ->
  Z.of_nat (length (range_loop fuel i stop step))
    = Z.max 0 (ceil_div (stop - i) step).
Proof.
  revert i; induction fuel as [|fuel IH]; intros i Hfuel.
  - simpl. pose proof (ceil_div_bounds (stop - i) step step_pos). nia.
  - rewrite range_loop_unfold.
    pose proof (ceil_div_bounds (stop - i) step step_pos) as Hc.
    destruct (Z.ltb_spec i stop) as [Hlt|Hge].
    + simpl length. rewrite Nat2Z.inj_succ, IH by lia.
      pose proof (ceil_div_bounds (stop - (i + step)) step step_pos) as Hc'.
      nia.
    + simpl. nia.
Qed.

Lemma range_loop_bounds (fuel : nat) (i : Z) :
  Forall (fun j => i <= j < stop) (range_loop fuel i stop step).
Proof.
  revert i; induction fuel as [|fuel IH]; intros i.
  - constructor.
  - rewrite range_loop_unfold. destruct (Z.ltb_spec i stop) as [Hlt|Hge].
    + constructor; [lia|].
      eapply Forall_impl; [apply IH|]. simpl. intros j Hj. lia.
    + constructor.
Qed.

(** The [k]-th index visited is [i + k * step]. *)
Lemma range_loop_lookup (fuel : nat) (i : Z) (k : nat) (j : Z) :
  range_loop fuel i stop step !! k = Some j -> j = i + Z.of_nat k * step.
Proof.
  revert i k; induction fuel as [|fuel IH]; intros i k.
  - simpl. intros H. discriminate.
  - rewrite range_loop_unfold. destruct (i <? stop); [|intros H; discriminate].
    destruct k as [|k]; simpl.
    + intros [= <-]. lia.
    + intros H. apply IH in H. lia.
Qed.

End Range.

(** ** Text chunking *)

Section Chunking.

Variables (text : string) (chunk_size : Z).
Hypothesis chunk_size_pos : 0 < chunk_size.

Lemma chunk_text_eq :
  chunk_text text chunk_size =
    Ok (map (fun i => slice text i (i + chunk_size))
            (range_loop (Z.to_nat (len text)) 0 (len text) chunk_size)).
Proof.
  unfold chunk_text, range.
  destruct (Z.eqb_spec chunk_size 0); [lia|].
  pose proof (len_nonneg text).
  rewrite Z.sub_0_r, Z.abs_eq by lia. reflexivity.
Qed.

Lemma chunk_len (i : Z) :
  0 <= i < len text -> 0 < len (slice text i (i + chunk_size)) <= chunk_size.
Proof.
  intros Hi. rewrite slice_len by lia. lia.
Qed.

(** Joined, the chunks from index [i] on are the rest of the text. *)
Lemma join_chunks (fuel : nat) (i : Z) :
  0 <= i -> (Z.to_nat (len text - i) <= fuel)%nat ->
  join (map (fun j => slice text j (j + chunk_size))
            (range_loop fuel i (len text) chunk_size))
    = substring (Z.to_nat i) (Z.to_nat (len text - i)) text.
Proof.
  revert i; induction fuel as [|fuel IH]; intros i Hi Hfuel.
  - simpl. replace (Z.to_nat (len text - i)) with 0%nat by lia.
    rewrite substring_zero_length. reflexivity.
  - rewrite range_loop_unfold by assumption.
    destruct (Z.ltb_spec i (len text)) as [Hlt|Hge].
    + simpl. rewrite IH by lia.
      rewrite slice_inside by lia.
      rewrite (Z.min_l i) by lia.
      destruct (Z.le_gt_cases (i + chunk_size) (len text)) as [Hin|Hout].
      * rewrite Z.min_l by lia.
        replace (Z.to_nat (len text - i))
          with (Z.to_nat (i + chunk_size - i)
                + Z.to_nat (len text - (i + chunk_size)))%nat by lia.
        rewrite substring_split. f_equal. f_equal. lia.
      * rewrite Z.min_r by lia.
        replace (Z.to_nat (len text - (i + chunk_size))) with 0%nat by lia.
        rewrite substring_zero_length, append_nil_r. reflexivity.
    + simpl. replace (Z.to_nat (len text - i)) with 0%nat by lia.
      rewrite substring_zero_length. reflexivity.
Qed.

End Chunking.

Lemma reassemble_zero (segs : list string) : reassemble 0 segs = join segs.
Proof.
  destruct segs as [|s rest]; [reflexivity|].
  simpl. f_equal. f_equal.
  induction rest as [|t rest IH]; simpl; [reflexivity|].
  rewrite slice_whole, IH. reflexivity.
Qed.

Lemma shares_zero (a b : string) : shares 0 a b.
Proof.
  unfold shares. pose proof (len_nonneg a). pose proof (len_nonneg b).
  repeat split; try lia.
  rewrite Z.sub_0_r, !slice_empty by lia. reflexivity.
Qed.

(** C1 (as the code has it): [chunk_text] takes no overlap; for every
    text and every chunk size C > 0 it returns segments that meet the
    splitter contract at overlap 0: for a text of length L > 0 there are
    ceil(L / C) of them, each has between 1 and C characters, consecutive
    segments share no character, their concatenation is the text, the
    [k]-th segment is [text[k*C : k*C + C]], and the empty text gives the
    empty sequence. *)
Theorem chunk_text_split (text : string) (chunk_size : Z) :
  0 < chunk_size ->
  exists segs : list string,
    chunk_text text chunk_size = Ok segs
    /\ overlap_split text chunk_size 0 segs
    /\ (forall (k : nat) (s : string), segs !! k = Some s ->
          s = slice text (Z.of_nat k * chunk_size)
                         (Z.of_nat k * chunk_size + chunk_size)).
Proof.
  intros Hpos. rewrite chunk_text_eq by assumption.
  eexists; split; [reflexivity|].
  pose proof (len_nonneg text) as Hlen.
  split; [unfold overlap_split; repeat apply conj|].
  - intros HL. rewrite length_map, range_loop_length by (assumption || lia).
    rewrite !Z.sub_0_r.
    pose proof (ceil_div_bounds (len text) chunk_size Hpos). nia.
  - apply Forall_fmap.
    eapply Forall_impl; [apply range_loop_bounds; assumption|].
    simpl. intros j Hj. rewrite slice_len by lia. lia.
  - intros k a b _ _. apply shares_zero.
  - rewrite reassemble_zero, join_chunks by (assumption || lia).
    rewrite Z.sub_0_r. apply substring_all. unfold len. lia.
  - intros ->. reflexivity.
  - intros k s Hk. rewrite list_lookup_fmap in Hk.
    destruct (range_loop _ _ _ _ !! k) as [j|] eqn:Hj; [|discriminate].
    apply range_loop_lookup in Hj; [|assumption].
    injection Hk as <-. subst j. rewrite Z.add_0_l. reflexivity.
Qed.

Lemma chunk_text_split_witness :
  exists segs : list string,
    chunk_text "abcdefg" 3 = Ok segs
    /\ overlap_split "abcdefg" 3 0 segs
    /\ (forall (k : nat) (s : string), segs !! k = Some s ->
          s = slice "abcdefg" (Z.of_nat k * 3) (Z.of_nat k * 3 + 3)).
Proof. apply (chunk_text_split "abcdefg" 3). lia. Defined.

(** C1 (as stated) fails for a positive overlap: on the four-character
    text "abcd" with chunk size 2 and overlap 1 the contract asks for
    ceil((4 - 1) / (2 - 1)) = 3 segments, and [chunk_text] returns the two
    segments "ab" and "cd". *)
Lemma chunk_text_ignores_overlap :
  exists segs : list string,
    chunk_text "abcd" 2 = Ok segs /\ ~ overlap_split "abcd" 2 1 segs.
Proof.
  exists ["ab"; "cd"]. split; [reflexivity|].
  intros (Hcount & _). specialize (Hcount ltac:(reflexivity)).
  vm_compute in Hcount. discriminate.
Qed.

(** ** Loops over [enumerate] *)

Lemma foldl_enumerate_append {X : Type} (f : nat -> X -> string)
  (xs : list X) (acc : string) :
  foldl (fun r '(i, x) => (r ++ f i x)%string) acc (enumerate xs)
    = (acc ++ join (imap f xs))%string.
Proof.
  unfold enumerate.
  enough (forall (g : nat -> nat) acc,
    foldl (fun r '(i, x) => (r ++ f i x)%string) acc
          (imap (fun i x => (g i, x)) xs)
      = (acc ++ join (imap (fun i => f (g i)) xs))%string) as H
    by apply (H (fun i => i)).
  induction xs as [|x xs IH]; intros g acc'; simpl.
  - rewrite append_nil_r. reflexivity.
  - rewrite (IH (fun i => g (S i))), append_assoc. reflexivity.
Qed.

Lemma foldl_enumerate_snoc {X Y : Type} (f : nat -> X -> Y)
  (xs : list X) (acc : list Y) :
  foldl (fun r '(i, x) => (r ++ [f i x])%list) acc (enumerate xs)
    = (acc ++ imap f xs)%list.
Proof.
  unfold enumerate.
  enough (forall (g : nat -> nat) acc,
    foldl (fun r '(i, x) => (r ++ [f i x])%list) acc
          (imap (fun i x => (g i, x)) xs)
      = (acc ++ imap (fun i => f (g i)) xs)%list) as H
    by apply (H (fun i => i)).
  induction xs as [|x xs IH]; intros g acc'; simpl.
  - rewrite app_nil_r. reflexivity.
  - rewrite (IH (fun i => g (S i))), <- app_assoc. reflexivity.
Qed.

(** ** The sentinel and [strip] *)

Lemma or_sentinel_empty : or_sentinel "" = "1".
Proof. reflexivity. Qed.

(** A text that starts with a bracket is kept as it is. *)
Lemma or_sentinel_bracket (s : string) :
  or_sentinel (String "[" s) = String "[" s.
Proof. reflexivity. Qed.

Lemma lstrip_bracket (s : string) : lstrip (String "[" s) = String "[" s.
Proof. reflexivity. Qed.

Lemma rstrip_nonempty (s : string) (c : ascii) :
  is_space c = false -> rstrip (s ++ String c "") = (s ++ String c "")%string.
Proof.
  intros Hc. induction s as [|a s IH].
  - simpl. rewrite Hc. reflexivity.
  - rewrite append_cons. simpl. rewrite IH.
    destruct s; reflexivity.
Qed.

(** [rstrip] removes a final line feed that follows a visible character. *)
Lemma rstrip_final_nl (s : string) (c : ascii) :
  is_space c = false -> rstrip (s ++ String c nl) = (s ++ String c "")%string.
Proof.
  intros Hc. induction s as [|a s IH].
  - simpl. rewrite Hc. reflexivity.
  - rewrite append_cons. simpl. rewrite IH.
    destruct s; reflexivity.
Qed.

Lemma rstrip_not_empty (s : string) (c : ascii) :
  is_space c = false -> rstrip (String c s) <> "".
Proof.
  intros Hc. simpl. destruct (rstrip s); [rewrite Hc|]; discriminate.
Qed.

(** ** The search tool *)

Lemma search_result_str_join (results : list Document) :
  search_result_str results = join (imap search_entry results).
Proof.
  unfold search_result_str. rewrite foldl_enumerate_append. reflexivity.
Qed.

Lemma truncated_content_prefix (doc : Document) :
  truncated_content doc = substring 0 2000 (page_content doc).
Proof.
  unfold truncated_content.
  destruct (Z.ltb_spec 2000 (len (page_content doc))) as [Hlong|Hshort].
  - apply (slice_to_prefix _ 2000).
  - symmetry. apply substring_all. unfold len in Hshort. lia.
Qed.

(** The formatted text of a non-empty result list starts with a bracket. *)
Lemma search_result_str_bracket (doc : Document) (rest : list Document) :
  exists s : string, search_result_str (doc :: rest) = String "[" s.
Proof.
  rewrite search_result_str_join. eexists. reflexivity.
Qed.

(** ** The grounding tool *)

(** The passages the grounding tool looks up: for every surviving source
    in input order, what the store returns for it. *)
Lemma grounding_search_results_flat (vector_store : VectorStore)
  (valid : list string) :
  grounding_search_results vector_store valid =
    map (fun doc => {| content := page_content doc; metadata_doc := doc |})
        (flat_map (similarity_search vector_store) valid).
Proof.
  unfold grounding_search_results.
  enough (forall acc,
    foldl (fun search_results source =>
             foldl (fun search_results doc =>
                      (search_results
                         ++ [{| content := page_content doc; metadata_doc := doc |}])%list)
                   search_results (similarity_search vector_store source))
          acc valid
    = (acc ++ map (fun doc => {| content := page_content doc; metadata_doc := doc |})
                  (flat_map (similarity_search vector_store) valid))%list) as H
    by apply (H []).
  induction valid as [|source valid IH]; intros acc; simpl.
  - rewrite app_nil_r. reflexivity.
  - rewrite IH, foldl_snoc, map_app, app_assoc. reflexivity.
Qed.

Lemma grounding_result_str_join (search_results : list SearchResult) :
  grounding_result_str search_results = join (map grounding_entry search_results).
Proof.
  unfold grounding_result_str. rewrite foldl_append. reflexivity.
Qed.

Lemma grounding_entry_bracket (result : SearchResult) (rest : string) :
  exists s : string, (grounding_entry result ++ rest)%string = String "[" s.
Proof. eexists. reflexivity. Qed.

(** Every entry ends with a dash and a line feed. *)
Lemma grounding_entry_end (result : SearchResult) :
  grounding_entry result
    = (("[" ++ slice_to (content result) 200 ++ "..." ++ nl ++ "----")
        ++ String "-" nl)%string.
Proof.
  unfold grounding_entry. rewrite !append_assoc. reflexivity.
Qed.

Lemma join_entries_end (search_results : list SearchResult) :
  search_results <> [] ->
  exists s : string,
    join (map grounding_entry search_results) = (s ++ String "-" nl)%string.
Proof.
  intros Hne.
  destruct (exists_last Hne) as (front & last & ->).
  rewrite map_app, join_app. simpl.
  rewrite append_nil_r, grounding_entry_end, <- append_assoc.
  eexists. reflexivity.
Qed.

(** For a non-empty list of passages [strip] takes the final line feed
    off the formatted text and nothing else. *)
Lemma strip_grounding_text (search_results : list SearchResult) :
  search_results <> [] ->
  (strip (or_sentinel (grounding_result_str search_results)) ++ nl)%string
    = join (map grounding_entry search_results).
Proof.
  intros Hne. rewrite grounding_result_str_join.
  destruct (join_entries_end search_results Hne) as (s & Hend).
  destruct search_results as [|r rest]; [congruence|].
  destruct (grounding_entry_bracket r (join (map grounding_entry rest)))
    as (t & Hhead).
  change (join (map grounding_entry (r :: rest)))
    with (grounding_entry r ++ join (map grounding_entry rest))%string in *.
  rewrite Hhead at 1. rewrite or_sentinel_bracket.
  unfold strip. rewrite lstrip_bracket, <- Hhead, Hend.
  rewrite rstrip_final_nl by reflexivity.
  rewrite append_assoc. reflexivity.
Qed.

Lemma flat_map_all_nil {X Y : Type} (f : X -> list Y) (xs : list X) :
  (forall x, x ∈ xs -> f x = []) -> flat_map f xs = [].
Proof.
  induction xs as [|x xs IH]; intros H; simpl; [reflexivity|].
  rewrite (H x), IH; [reflexivity| |]; intros; try apply H; set_solver.
Qed.

(** C2: when the search finds nothing, and when no valid source yields a
    passage, the payload of the tool is the one-character string "1"; and
    on no input is the payload of either tool the empty string. *)
Theorem empty_result_sentinel (vector_store : VectorStore) :
  (forall args : SearchArgs,
      vector_search (query args) vector_store = [] ->
      payload (_search_tool vector_store args) = "1")
  /\ (forall args : GroundingArgs,
        (forall s, s ∈ valid_sources (sources args) ->
                   similarity_search vector_store s = []) ->
        payload (_report_grounding_tool vector_store args) = "1")
  /\ (forall args : SearchArgs, payload (_search_tool vector_store args) <> "")
  /\ (forall args : GroundingArgs,
        payload (_report_grounding_tool vector_store args) <> "").
Proof.
  repeat apply conj.
  - intros args Hnone. unfold _search_tool. simpl. rewrite Hnone. reflexivity.
  - intros args Hnone. unfold _report_grounding_tool. simpl.
    rewrite grounding_search_results_flat, flat_map_all_nil by assumption.
    reflexivity.
  - intros args. unfold _search_tool. simpl.
    destruct (vector_search (query args) vector_store) as [|doc rest].
    + discriminate.
    + destruct (search_result_str_bracket doc rest) as (s & ->).
      rewrite or_sentinel_bracket. discriminate.
  - intros args. unfold _report_grounding_tool. simpl.
    rewrite grounding_search_results_flat, grounding_result_str_join.
    destruct (flat_map _ _) as [|doc rest]; [discriminate|].
    simpl map.
    match goal with
    | |- context [join (grounding_entry ?r :: ?l)] =>
        destruct (grounding_entry_bracket r (join l)) as (t & Ht);
        change (join (grounding_entry r :: l))
          with (grounding_entry r ++ join l)%string;
        rewrite Ht
    end.
    rewrite or_sentinel_bracket. unfold strip. rewrite lstrip_bracket.
    apply rstrip_not_empty. reflexivity.
Qed.

Lemma empty_result_sentinel_witness :
  payload (_search_tool empty_store {| query := "installation" |}) = "1"
  /\ payload (_report_grounding_tool empty_store {| sources := ["doc_0"] |}) = "1".
Proof.
  destruct (empty_result_sentinel empty_store) as (Hsearch & Hground & _).
  split.
  - apply Hsearch. reflexivity.
  - apply Hground. intros s _. reflexivity.
Defined.

(** C4: for a non-empty result list the payload of the search tool is
    the concatenation, in the order of the results, of the segments
    "[doc_i]: Content: " + content_i + "\n-----\n", where i counts the
    results from 0 and content_i is the first 2000 characters of the
    i-th result's text (the whole text when it has no more); the title in
    the result's metadata does not occur in it. *)
Theorem search_tool_payload (vector_store : VectorStore) (args : SearchArgs) :
  vector_search (query args) vector_store <> [] ->
  payload (_search_tool vector_store args)
    = join (imap (fun i doc =>
                    "[doc_" ++ str_of_nat i ++ "]: Content: "
                      ++ substring 0 2000 (page_content doc)
                      ++ nl ++ "-----" ++ nl)%string
                 (vector_search (query args) vector_store))
  /\ (forall doc : Document,
        (String.length (substring 0 2000 (page_content doc)) <= 2000)%nat
        /\ ((String.length (page_content doc) <= 2000)%nat ->
            substring 0 2000 (page_content doc) = page_content doc)).
Proof.
  intros Hsome. split.
  - unfold _search_tool. simpl.
    destruct (vector_search (query args) vector_store) as [|doc rest] eqn:Hres;
      [congruence|].
    destruct (search_result_str_bracket doc rest) as (s & Hs).
    rewrite Hs, or_sentinel_bracket, <- Hs, search_result_str_join.
    f_equal. apply imap_ext. intros i d _. unfold search_entry.
    rewrite truncated_content_prefix. reflexivity.
  - intros doc. split.
    + rewrite substring_length. lia.
    + apply substring_all.
Qed.

Lemma search_tool_payload_witness :
  payload (_search_tool manual_store {| query := "installation" |})
    = ("[doc_0]: Content: Install the unit." ++ nl ++ "-----" ++ nl)%string.
Proof.
  destruct (search_tool_payload manual_store {| query := "installation" |})
    as (Hpayload & _).
  - discriminate.
  - rewrite Hpayload. reflexivity.
Defined.

(** C5 (as the code has it): when the lookups of the surviving sources
    find passages, the payload of the grounding tool followed by one line
    feed is the concatenation of the segments "[" + snippet + "...\n-----\n",
    one per passage, in the input order of the surviving sources and,
    for one source, in the order the store returns them; snippet is the
    first 200 characters of the passage.  [strip] removes the line feed
    that ends the last segment. *)
Theorem report_grounding_payload (vector_store : VectorStore)
  (args : GroundingArgs) :
  flat_map (similarity_search vector_store) (valid_sources (sources args)) <> [] ->
  (payload (_report_grounding_tool vector_store args) ++ nl)%string
    = join (map (fun doc =>
                   "[" ++ substring 0 200 (page_content doc) ++ "..."
                     ++ nl ++ "-----" ++ nl)%string
                (flat_map (similarity_search vector_store)
                          (valid_sources (sources args))))
  /\ (forall doc : Document,
        (String.length (substring 0 200 (page_content doc)) <= 200)%nat).
Proof.
  intros Hsome. split.
  - unfold _report_grounding_tool. simpl.
    rewrite strip_grounding_text.
    + rewrite grounding_search_results_flat, map_map. f_equal.
      apply map_ext. intros doc. unfold grounding_entry. simpl.
      rewrite (slice_to_prefix _ 200). reflexivity.
    + rewrite grounding_search_results_flat.
      destruct (flat_map _ _); [congruence | discriminate].
  - intros doc. rewrite substring_length. lia.
Qed.

Lemma report_grounding_payload_witness :
  (payload (_report_grounding_tool manual_store {| sources := ["doc_0"] |}) ++ nl)%string
    = ("[Install the unit...." ++ nl ++ "-----" ++ nl)%string.
Proof.
  destruct (report_grounding_payload manual_store {| sources := ["doc_0"] |})
    as (Hpayload & _).
  - discriminate.
  - rewrite Hpayload. reflexivity.
Defined.

(** C5 (as stated) fails: for the single passage "Install the unit." the
    payload is not the segment itself, it lacks the segment's final line
    feed. *)
Lemma report_grounding_strips_payload :
  payload (_report_grounding_tool manual_store {| sources := ["doc_0"] |})
    <> join (map grounding_entry
                 (grounding_search_results manual_store (valid_sources ["doc_0"]))).
Proof. intros H. vm_compute in H. discriminate. Qed.

(** ** The allow-list of the grounding tool *)

Lemma at_eol_cases (s : string) :
  Re.at_eol s = true <-> s = "" \/ s = nl.
Proof.
  destruct s as [|c [|d s]]; simpl.
  - split; [auto | reflexivity].
  - split.
    + intros H. apply Ascii.eqb_eq in H. subst c. right. reflexivity.
    + intros [H|H]; [discriminate|]. injection H as ->. reflexivity.
  - split; [discriminate|]. intros [H|H]; discriminate.
Qed.

(** [cls+] followed by [$]: a non-empty run of [cls], then the end of the
    subject or its final line feed. *)
Lemma plus_eol (cls : ascii -> bool) (s : string) :
  Re.plus cls s (fun rest => Re.at_eol rest && true) = true <->
  exists body tail : string,
    s = (body ++ tail)%string /\ body <> "" /\ all_chars cls body = true
    /\ Re.at_eol tail = true.
Proof.
  induction s as [|c s IH]; simpl.
  - split; [discriminate|].
    intros (body & tail & Hs & Hne & _). destruct body; [congruence|discriminate].
  - rewrite andb_true_iff, orb_true_iff, IH, andb_true_r. split.
    + intros (Hc & [(body & tail & -> & Hne & Hall & Heol) | Heol]).
      * exists (String c body), tail. repeat split; try assumption.
        -- discriminate.
        -- simpl. rewrite Hc, Hall. reflexivity.
      * exists (String c ""), s. repeat split; try assumption.
        -- discriminate.
        -- simpl. rewrite Hc. reflexivity.
    + intros (body & tail & Hs & Hne & Hall & Heol).
      destruct body as [|b body]; [congruence|].
      rewrite append_cons in Hs. injection Hs as <- ->.
      simpl in Hall. apply andb_true_iff in Hall as (Hc & Hall).
      split; [assumption|].
      destruct body as [|b' body].
      * right. assumption.
      * left. exists (String b' body), tail. repeat split; try assumption.
        discriminate.
Qed.

(** What [re.match] accepts for the source pattern: an allow-listed
    string, or an allow-listed string followed by one line feed. *)
Lemma source_pattern_match (s : string) :
  Re.match_ source_pattern s = true <->
  exists body : string,
    allow_listed body = true /\ (s = body \/ s = (body ++ nl)%string).
Proof.
  unfold Re.match_, source_pattern. simpl Re.matches.
  rewrite plus_eol. unfold allow_listed. split.
  - intros (body & tail & -> & Hne & Hall & Heol).
    exists body. split.
    + rewrite Hall. destruct body; [congruence|reflexivity].
    + apply at_eol_cases in Heol as [-> | ->];
        [left; rewrite append_nil_r|right]; reflexivity.
  - intros (body & Hallow & Hs).
    apply andb_true_iff in Hallow as (Hne & Hall).
    assert (body <> "") as Hbody by (destruct body; [discriminate|discriminate]).
    destruct Hs as [-> | ->].
    + exists body, "". rewrite append_nil_r. repeat split; assumption.
    + exists body, nl. repeat split; assumption.
Qed.

(** The filter keeps the sources that [re.match] accepts, in input order. *)
Lemma valid_sources_spec (sources : list string) (s : string) :
  s ∈ valid_sources sources <->
  s ∈ sources /\ Re.match_ source_pattern s = true.
Proof. unfold valid_sources. rewrite list_elem_of_filter. tauto. Qed.

(** The sample of the specification: of the sources "doc_0" and
    "doc_0; rm -rf" only "doc_0" survives the filter. *)
Lemma valid_sources_sample :
  valid_sources ["doc_0"; "doc_0; rm -rf"] = ["doc_0"].
Proof. reflexivity. Qed.

(** C3 (where the code departs from it): the source "doc_0"
    followed by a line feed is not made of allow-listed characters, and
    the filter keeps it, because [$] also matches before a final line
    feed; the kept source is then looked up like any other and its
    passage is in the payload. *)
Theorem valid_sources_keeps_final_newline :
  allow_listed ("doc_0" ++ nl) = false
  /\ valid_sources ["doc_0" ++ nl]%string = ["doc_0" ++ nl]%string
  /\ payload (_report_grounding_tool manual_store
                {| sources := ["doc_0" ++ nl]%string |})
     = ("[Install the unit...." ++ nl ++ "-----")%string.
Proof. repeat split. Qed.

(** ** Ingestion *)

(** The documents of a directory: file by file in listing order, the
    chunks of each PDF file in the loader's order, each under its title. *)
Lemma add_pdf_documents_flat (io : Loader) (pdf_dir : string) (chunk_size : Z) :
  add_pdf_documents io pdf_dir chunk_size =
    flat_map (fun filename =>
      if endswith filename ".pdf"
      then imap (set_title filename)
                (load_and_split io (path_join pdf_dir filename) chunk_size 250)
      else [])
    (listdir io pdf_dir).
Proof.
  unfold add_pdf_documents.
  generalize (listdir io pdf_dir) as files.
  enough (forall files acc,
    foldl (fun documents filename =>
      if endswith filename ".pdf" then
        let filepath := path_join pdf_dir filename in
        let loaded_documents := load_and_split io filepath chunk_size 250 in
        foldl (fun documents '(i, doc) =>
                 (documents ++ [set_title filename i doc])%list)
              documents (enumerate loaded_documents)
      else documents) acc files
    = (acc ++ flat_map (fun filename =>
         if endswith filename ".pdf"
         then imap (set_title filename)
                   (load_and_split io (path_join pdf_dir filename) chunk_size 250)
         else []) files)%list) as H
    by (intros files; apply (H files [])).
  induction files as [|filename files IH]; intros acc; simpl.
  - rewrite app_nil_r. reflexivity.
  - rewrite IH. destruct (endswith filename ".pdf").
    + rewrite foldl_enumerate_snoc, <- app_assoc. reflexivity.
    + reflexivity.
Qed.

Lemma title_set_title (filename : string) (i : nat) (doc : Document) :
  title (set_title filename i doc)
    = Some (filename ++ "_chunk_" ++ str_of_nat i)%string.
Proof. unfold title, set_title. simpl. apply lookup_singleton_eq. Qed.





(** ** Provisioning policies *)

Lemma range_empty : range 0 (Z.of_nat 0) 1 = Ok [].
Proof. reflexivity. Qed.

Lemma range_nonempty (n : nat) :
  exists rest : list Z, range 0 (Z.of_nat (S n)) 1 = Ok (0 :: rest).
Proof.
  unfold range. simpl (1 =? 0).
  replace (Z.to_nat (Z.abs (Z.of_nat (S n) - 0))) with (S n) by lia.
  rewrite range_loop_unfold by lia.
  destruct (Z.ltb_spec 0 (Z.of_nat (S n))); [|lia].
  eexists. reflexivity.
Qed.

Lemma bind_ok {A B : Type} (a : A) (k : A -> result B) : Ok a ≫= k = k a.
Proof. reflexivity. Qed.

(** A loop whose body neither reads the state nor the loop variable
    leaves the state alone when it does not run, and otherwise ends with
    what one run of the body gives. *)
Lemma for_const {S X : Type} (r : result S) (xs : list X) (s : S) :
  for_ xs (fun _ _ => r) s = match xs with [] => Ok s | _ :: _ => r end.
Proof.
  revert s; induction xs as [|x xs IH]; intros s; [reflexivity|].
  simpl. destruct r as [v|e]; [|reflexivity].
  simpl. rewrite IH. destruct xs; reflexivity.
Qed.

Lemma get_vector_indexing_policy_cons (embedding_path : list value)
  (t : value) (ts : list value) :
  get_vector_indexing_policy embedding_path (t :: ts) =
    match embedding_path with
    | p :: _ =>
        Ok (JDict [("indexingMode", JVal (Str "consistent"));
                   ("includedPaths", JList [JDict [("path", JVal (Str "/*"))]]);
                   ("excludedPaths",
                    JList [JDict [("path",
                                   JVal (Str ("/" ++ dq ++ "_etag" ++ dq ++ "/?")))]]);
                   ("vectorIndexes",
                    JList [JDict [("path", JVal p);
                                  ("type", JVal (Str (format_value t)))]])])
    | [] => Raise IndexError
    end.
Proof.
  unfold get_vector_indexing_policy.
  destruct (range_nonempty (length ts)) as (rest & Hrange).
  change (length (t :: ts)) with (S (length ts)). rewrite Hrange.
  rewrite bind_ok, for_const.
  destruct embedding_path as [|p ps]; reflexivity.
Qed.

Lemma get_vector_embedding_policy_cons (embedding_path : list value)
  (df : value) (dfs data_type dimensions : list value) :
  get_vector_embedding_policy embedding_path (df :: dfs) data_type dimensions =
    match embedding_path, data_type, dimensions with
    | p :: _, dt :: _, dim :: _ =>
        Ok (JDict [("vectorEmbeddings",
                    JList [JDict [("path", JVal p);
                                  ("dataType", JVal (Str (format_value dt)));
                                  ("dimensions", JVal dim);
                                  ("distanceFunction",
                                   JVal (Str (format_value df)))]])])
    | _, _, _ => Raise IndexError
    end.
Proof.
  unfold get_vector_embedding_policy.
  destruct (range_nonempty (length dfs)) as (rest & Hrange).
  change (length (df :: dfs)) with (S (length dfs)). rewrite Hrange.
  rewrite bind_ok, for_const.
  destruct embedding_path as [|p ps], data_type as [|dt dts],
    dimensions as [|dim dims]; reflexivity.
Qed.

(** C8: with a non-empty [embedding_type] the index policy that is
    returned has one vector index, built from [embedding_path[0]] and
    [embedding_type[0]], whatever follows them in the lists; with a
    non-empty [distance_function] the embedding policy that is returned
    has one vector embedding, built from element 0 of the four lists; no
    policy is returned, and [IndexError] is raised, when one of the other
    lists is empty. *)
Theorem policies_use_first_entries :
  (forall (embedding_path : list value) (t : value) (ts : list value),
      match embedding_path with
      | p :: _ =>
          exists policy : json,
            get_vector_indexing_policy embedding_path (t :: ts) = Ok policy
            /\ dict_get "vectorIndexes" policy =
                 Some (JList [JDict [("path", JVal p);
                                     ("type", JVal (Str (format_value t)))]])
      | [] => get_vector_indexing_policy embedding_path (t :: ts) = Raise IndexError
      end)
  /\ (forall (embedding_path : list value) (df : value)
             (dfs data_type dimensions : list value),
        match embedding_path, data_type, dimensions with
        | p :: _, dt :: _, dim :: _ =>
            exists policy : json,
              get_vector_embedding_policy embedding_path (df :: dfs)
                                          data_type dimensions = Ok policy
              /\ dict_get "vectorEmbeddings" policy =
                   Some (JList [JDict [("path", JVal p);
                                       ("dataType", JVal (Str (format_value dt)));
                                       ("dimensions", JVal dim);
                                       ("distanceFunction",
                                        JVal (Str (format_value df)))]])
        | _, _, _ =>
            get_vector_embedding_policy embedding_path (df :: dfs)
                                        data_type dimensions = Raise IndexError
        end).
Proof.
  split.
  - intros embedding_path t ts. rewrite get_vector_indexing_policy_cons.
    destruct embedding_path as [|p ps]; [reflexivity|].
    eexists. split; reflexivity.
  - intros embedding_path df dfs data_type dimensions.
    rewrite get_vector_embedding_policy_cons.
    destruct embedding_path as [|p ps], data_type as [|dt dts],
      dimensions as [|dim dims]; try reflexivity.
    eexists. split; reflexivity.
Qed.

(** C10: called with an empty [embedding_type], respectively an empty
    [distance_function], the policy builders raise [UnboundLocalError], a
    [NameError], for the list the loop never bound; so a call that
    returns a policy was made with a non-empty list. *)
Theorem policies_unbound_on_empty_list :
  (forall embedding_path : list value,
      get_vector_indexing_policy embedding_path []
        = Raise (UnboundLocalError "vectorIndexes"))
  /\ (forall embedding_path data_type dimensions : list value,
        get_vector_embedding_policy embedding_path [] data_type dimensions
          = Raise (UnboundLocalError "vectorEmbeddings"))
  /\ (forall name : string, is_NameError (UnboundLocalError name) = true)
  /\ (forall (embedding_path embedding_type : list value) (policy : json),
        get_vector_indexing_policy embedding_path embedding_type = Ok policy ->
        embedding_type <> [])
  /\ (forall (embedding_path distance_function data_type dimensions : list value)
             (policy : json),
        get_vector_embedding_policy embedding_path distance_function
                                    data_type dimensions = Ok policy ->
        distance_function <> []).
Proof.
  repeat apply conj; try reflexivity.
  - intros embedding_path embedding_type policy Hok ->. discriminate.
  - intros embedding_path distance_function data_type dimensions policy Hok ->.
    discriminate.
Qed.

Lemma policies_unbound_on_empty_list_witness :
  [Str "diskANN"] <> [] /\ [Str "cosine"] <> [].
Proof.
  destruct policies_unbound_on_empty_list as (_ & _ & _ & Hindex & Hembedding).
  split.
  - eapply (Hindex [Str "/embedding"] [Str "diskANN"]). reflexivity.
  - eapply (Hembedding [Str "/embedding"] [Str "cosine"] [Str "float32"] [Int 1536]).
    reflexivity.
Defined.

(** ** Attaching the tools *)

Lemma attach_rag_tools_cosmosdb_eq (backend : Backend) (io : Loader)
  (environ : gmap string string) (pdf_dir : string)
  (container : gmap string Document) :
  attach_rag_tools_cosmosdb backend io environ pdf_dir container =
    Ok {| indexing_policy :=
            JDict [("indexingMode", JVal (Str "consistent"));
                   ("includedPaths", JList [JDict [("path", JVal (Str "/*"))]]);
                   ("excludedPaths",
                    JList [JDict [("path",
                                   JVal (Str ("/" ++ dq ++ "_etag" ++ dq ++ "/?")))]]);
                   ("vectorIndexes",
                    JList [JDict [("path", JVal (Str "/embedding"));
                                  ("type",
                                   JVal (Str (format_value
                                     (getenv environ
                                        "COSMOSDB_VECTOR_EMBEDDINGS_TYPE"))))]])];
          vector_embedding_policy :=
            JDict [("vectorEmbeddings",
                    JList [JDict [("path", JVal (Str "/embedding"));
                                  ("dataType", JVal (Str "float32"));
                                  ("dimensions", JVal (Int 1536));
                                  ("distanceFunction", JVal (Str "cosine"))]])];
          vector_store_items :=
            from_documents backend
              (add_pdf_documents io pdf_dir chunk_size_default) container |}.
Proof.
  unfold attach_rag_tools_cosmosdb.
  rewrite get_vector_indexing_policy_cons, get_vector_embedding_policy_cons.
  reflexivity.
Qed.

(** C9 (as the code has it): attaching always builds its two policies;
    the index policy has indexingMode "consistent", the included path
    "/*", the excluded path /"_etag"/? with the property name in double
    quotes, and one vector index at path "/embedding" whose type is the
    configured index type; the embedding policy has one vector embedding
    with path "/embedding", dataType "float32", dimensions 1536 and
    distanceFunction "cosine". *)
Theorem attach_policies (backend : Backend) (io : Loader)
  (environ : gmap string string) (pdf_dir : string)
  (container : gmap string Document) :
  exists attached : Attached,
    attach_rag_tools_cosmosdb backend io environ pdf_dir container = Ok attached
    /\ indexing_policy attached =
         JDict [("indexingMode", JVal (Str "consistent"));
                ("includedPaths", JList [JDict [("path", JVal (Str "/*"))]]);
                ("excludedPaths",
                 JList [JDict [("path",
                                JVal (Str ("/" ++ dq ++ "_etag" ++ dq ++ "/?")))]]);
                ("vectorIndexes",
                 JList [JDict [("path", JVal (Str "/embedding"));
                               ("type",
                                JVal (Str (format_value
                                  (getenv environ
                                     "COSMOSDB_VECTOR_EMBEDDINGS_TYPE"))))]])]
    /\ vector_embedding_policy attached =
         JDict [("vectorEmbeddings",
                 JList [JDict [("path", JVal (Str "/embedding"));
                               ("dataType", JVal (Str "float32"));
                               ("dimensions", JVal (Int 1536));
                               ("distanceFunction", JVal (Str "cosine"))]])].
Proof.
  rewrite attach_rag_tools_cosmosdb_eq. eexists. repeat split.
Qed.

(** C9 (as stated) fails on the excluded path: the index policy built
    with the DiskANN index type configured does not exclude "/_etag/?". *)
Lemma attach_excluded_path_is_quoted :
  ~ exists attached : Attached,
      attach_rag_tools_cosmosdb counting_backend manual_loader diskann_environ
                                "../../data" ∅ = Ok attached
      /\ dict_get "excludedPaths" (indexing_policy attached)
           = Some (JList [JDict [("path", JVal (Str "/_etag/?"))]]).
Proof.
  intros (attached & Hattach & Hpath).
  rewrite attach_rag_tools_cosmosdb_eq in Hattach.
  injection Hattach as <-. vm_compute in Hpath. discriminate.
Qed.

(** ** Ingesting twice *)

Section KeyedStore.

Variables (backend : Backend) (key : Document -> string).
Hypothesis keyed : forall container doc, new_id backend container doc = key doc.

(** A store that derives the id from the document writes the same items
    over whatever the container holds. *)
Lemma from_documents_keyed (documents : list Document) :
  exists written : gmap string Document,
    forall container : gmap string Document,
      from_documents backend documents container = written ∪ container.
Proof.
  unfold from_documents.
  induction documents as [|doc documents IH]; simpl.
  - exists ∅. intros container. rewrite (left_id_L ∅ (∪)). reflexivity.
  - destruct IH as (written & IH).
    exists (written ∪ {[ key doc := doc ]}). intros container.
    rewrite IH, keyed, insert_union_singleton_l, (assoc_L (∪)). reflexivity.
Qed.

Lemma from_documents_twice (documents : list Document)
  (container : gmap string Document) :
  from_documents backend documents (from_documents backend documents container)
    = from_documents backend documents container.
Proof.
  destruct (from_documents_keyed documents) as (written & Hwritten).
  rewrite !Hwritten, (assoc_L (∪)), (idemp_L (∪)). reflexivity.
Qed.

End KeyedStore.

(** C7 (as stated) fails: the code derives no id, and with a store that
    writes every document under a new id a second attach over the same
    file adds its three chunks again; the container grows from three
    items to six. *)
Lemma reingestion_duplicates :
  exists first second : Attached,
    attach_rag_tools_cosmosdb counting_backend manual_loader diskann_environ
                              "../../data" ∅ = Ok first
    /\ attach_rag_tools_cosmosdb counting_backend manual_loader diskann_environ
                                 "../../data" (vector_store_items first) = Ok second
    /\ size (vector_store_items first) = 3%nat
    /\ size (vector_store_items second) = 6%nat
    /\ vector_store_items second <> vector_store_items first.
Proof.
  eexists. eexists.
  split; [apply attach_rag_tools_cosmosdb_eq|].
  split; [apply attach_rag_tools_cosmosdb_eq|].
  assert (size (from_documents counting_backend
                  (add_pdf_documents manual_loader "../../data" chunk_size_default)
                  ∅) = 3%nat) as Hfirst by (vm_compute; reflexivity).
  assert (size (from_documents counting_backend
                  (add_pdf_documents manual_loader "../../data" chunk_size_default)
                  (from_documents counting_backend
                     (add_pdf_documents manual_loader "../../data"
                                        chunk_size_default) ∅)) = 6%nat)
    as Hsecond by (vm_compute; reflexivity).
  unfold vector_store_items. repeat split; try assumption.
  intros Heq. rewrite Heq, Hfirst in Hsecond. clear Heq Hfirst.
  discriminate Hsecond.
Qed.

(** * Further properties *)

(** ** Text chunking: edge cases and chunk lengths *)

Lemma range_loop_ge (stop step : Z) (fuel : nat) (i : Z) :
  0 < step -> stop <= i -> range_loop fuel i stop step = [].
Proof.
  intros Hstep Hge. destruct fuel as [|fuel]; [reflexivity|].
  rewrite range_loop_unfold by assumption.
  destruct (Z.ltb_spec i stop); [lia | reflexivity].
Qed.

(** With a negative step and a start that is not above the stop the
    range is empty. *)
Lemma range_loop_negative_step (stop step : Z) (fuel : nat) (i : Z) :
  step < 0 -> i <= stop -> range_loop fuel i stop step = [].
Proof.
  intros Hstep Hle. destruct fuel as [|fuel]; [reflexivity|]. simpl.
  destruct (Z.ltb_spec 0 step); [lia|].
  destruct (Z.ltb_spec stop i); [lia | reflexivity].
Qed.

(** X1: a chunk size of zero makes [chunk_text] raise [ValueError] on
    every text, the empty one included, and a negative chunk size makes it
    return the empty list, whatever the text. *)
Theorem chunk_text_nonpositive_size (text : string) (chunk_size : Z) :
  chunk_size <= 0 ->
  chunk_text text chunk_size =
    if chunk_size =? 0 then Raise ValueError else Ok [].
Proof.
  intros Hle. unfold chunk_text, range.
  destruct (Z.eqb_spec chunk_size 0) as [->|Hne]; [reflexivity|].
  rewrite range_loop_negative_step by (pose proof (len_nonneg text); lia).
  reflexivity.
Qed.

Lemma chunk_text_nonpositive_size_witness :
  chunk_text "abcdefg" 0 = Raise ValueError
  /\ chunk_text "abcdefg" (-3) = Ok [].
Proof.
  split.
  - apply (chunk_text_nonpositive_size "abcdefg" 0). lia.
  - apply (chunk_text_nonpositive_size "abcdefg" (-3)). lia.
Defined.

(** X2: for a chunk size C > 0 every segment but the last has exactly C
    characters, and the last one has the characters that remain,
    [len(text) - (n - 1) * C] for [n] segments. *)
Theorem chunk_text_segment_lengths (text : string) (chunk_size : Z)
  (segs : list string) (k : nat) (s : string) :
  0 < chunk_size ->
  chunk_text text chunk_size = Ok segs ->
  segs !! k = Some s ->
  len s = if (S k <? length segs)%nat
          then chunk_size
          else len text - Z.of_nat k * chunk_size.
Proof.
  intros Hpos Hsegs Hk. rewrite chunk_text_eq in Hsegs by assumption.
  injection Hsegs as <-.
  pose proof (len_nonneg text) as Hlen.
  pose proof (lookup_lt_Some _ _ _ Hk) as Hlt.
  rewrite length_map in *.
  pose proof (range_loop_length (len text) chunk_size Hpos
                (Z.to_nat (len text)) 0 ltac:(lia)) as Hcount.
  rewrite Z.sub_0_r in Hcount.
  pose proof (ceil_div_bounds (len text) chunk_size Hpos) as Hceil.
  rewrite list_lookup_fmap in Hk.
  destruct (range_loop _ _ _ _ !! k) as [j|] eqn:Hj; [|discriminate].
  apply range_loop_lookup in Hj; [|assumption].
  injection Hk as <-. subst j. rewrite Z.add_0_l.
  rewrite slice_len by nia.
  destruct (Nat.ltb_spec (S k) (length (range_loop (Z.to_nat (len text)) 0
                                          (len text) chunk_size))); nia.
Qed.

Lemma chunk_text_segment_lengths_witness :
  len "abc" = 3 /\ len "g" = 7 - 2 * 3.
Proof.
  split.
  - apply (chunk_text_segment_lengths "abcdefg" 3 ["abc"; "def"; "g"] 0 "abc");
      [lia | reflexivity | reflexivity].
  - apply (chunk_text_segment_lengths "abcdefg" 3 ["abc"; "def"; "g"] 2 "g");
      [lia | reflexivity | reflexivity].
Defined.

(** X3: a non-empty text that fits in one chunk is returned whole, as the
    only segment. *)
Theorem chunk_text_short_text (text : string) (chunk_size : Z) :
  0 < len text <= chunk_size ->
  chunk_text text chunk_size = Ok [text].
Proof.
  intros (Hne & Hfit). rewrite chunk_text_eq by lia. f_equal.
  destruct (Z.to_nat (len text)) as [|fuel] eqn:Hfuel; [lia|].
  rewrite range_loop_unfold by lia.
  destruct (Z.ltb_spec 0 (len text)); [|lia].
  rewrite range_loop_ge by lia. simpl. f_equal.
  rewrite slice_inside by lia.
  rewrite Z.min_l, Z.min_r by lia. rewrite Z.sub_0_r. simpl Z.to_nat.
  apply substring_all. unfold len. lia.
Qed.

Lemma chunk_text_short_text_witness : chunk_text "abc" 1000 = Ok ["abc"].
Proof. apply chunk_text_short_text. unfold len. simpl. lia. Defined.

(** ** The grounding filter and what it lets through *)

(** X4: a source survives the filter of the grounding tool exactly when
    it is in the input and is a non-empty run of the characters a-z, A-Z,
    0-9, underscore, equals sign and hyphen, optionally followed by one
    final line feed. *)
Theorem valid_sources_elem (sources : list string) (s : string) :
  s ∈ valid_sources sources <->
  s ∈ sources
  /\ exists body : string,
       allow_listed body = true /\ (s = body \/ s = (body ++ nl)%string).
Proof.
  rewrite valid_sources_spec, source_pattern_match. reflexivity.
Qed.

Lemma valid_sources_idem (sources : list string) :
  valid_sources (valid_sources sources) = valid_sources sources.
Proof.
  unfold valid_sources. induction sources as [|s sources IH]; [reflexivity|].
  rewrite (filter_cons _ s sources).
  destruct (decide (Re.match_ source_pattern s = true)) as [Hs|Hs].
  - rewrite filter_cons, decide_True by assumption. rewrite IH. reflexivity.
  - apply IH.
Qed.

Lemma flat_map_ext_elem {X Y : Type} (f g : X -> list Y) (xs : list X) :
  (forall x, x ∈ xs -> f x = g x) -> flat_map f xs = flat_map g xs.
Proof.
  induction xs as [|x xs IH]; intros H; simpl; [reflexivity|].
  rewrite (H x), IH; [reflexivity| |]; intros; try apply H; set_solver.
Qed.

(** X5: the grounding tool reads the store only at sources that pass the
    filter: two stores that answer alike on every string the pattern
    matches give the same result, and so does the input with the rejected
    sources removed. *)
Theorem report_grounding_ignores_rejected (store1 store2 : VectorStore)
  (args : GroundingArgs) :
  (forall s : string,
      Re.match_ source_pattern s = true ->
      similarity_search store1 s = similarity_search store2 s) ->
  _report_grounding_tool store1 args
    = _report_grounding_tool store2
        {| sources := valid_sources (sources args) |}.
Proof.
  intros Hagree. unfold _report_grounding_tool. simpl.
  rewrite valid_sources_idem, !grounding_search_results_flat.
  rewrite (flat_map_ext_elem (similarity_search store1)
                             (similarity_search store2)); [reflexivity|].
  intros s Hs. apply Hagree. apply valid_sources_spec in Hs. tauto.
Qed.

Lemma report_grounding_ignores_rejected_witness :
  _report_grounding_tool manual_store {| sources := ["doc_0"; "doc_0; rm -rf"] |}
    = _report_grounding_tool manual_store
        {| sources := valid_sources ["doc_0"; "doc_0; rm -rf"] |}.
Proof.
  apply (report_grounding_ignores_rejected manual_store manual_store
           {| sources := ["doc_0"; "doc_0; rm -rf"] |}).
  intros s _. reflexivity.
Defined.

(** ** Size and shape of the payloads *)

Lemma join_length_bound (bound : nat) (parts : list string) :
  Forall (fun part => (String.length part <= bound)%nat) parts ->
  (String.length (join parts) <= bound * length parts)%nat.
Proof.
  induction 1 as [|part parts Hpart _ IH]; [simpl; lia|].
  change (join (part :: parts)) with (part ++ join parts)%string.
  rewrite append_length. simpl length. rewrite Nat.mul_succ_r, Nat.add_comm.
  apply Nat.add_le_mono; assumption.
Qed.

Lemma join_length_lower (bound : nat) (parts : list string) :
  Forall (fun part => (bound <= String.length part)%nat) parts ->
  (bound * length parts <= String.length (join parts))%nat.
Proof.
  induction 1 as [|part parts Hpart _ IH]; [simpl; lia|].
  change (join (part :: parts)) with (part ++ join parts)%string.
  rewrite append_length. simpl length. rewrite Nat.mul_succ_r, Nat.add_comm.
  apply Nat.add_le_mono; assumption.
Qed.

(** An entry is its snippet and eleven characters of framing. *)
Lemma grounding_entry_length (result : SearchResult) :
  String.length (grounding_entry result)
    = (11 + Nat.min 200 (String.length (content result)))%nat.
Proof.
  unfold grounding_entry. rewrite (slice_to_prefix _ 200).
  rewrite !append_length, substring_length.
  change (String.length "[") with 1%nat.
  change (String.length "...") with 3%nat.
  change (String.length nl) with 1%nat.
  change (String.length "-----") with 5%nat.
  lia.
Qed.

(** X6: when no passage is found the payload of the grounding tool is
    exactly the one-character sentinel "1"; when n >= 1 passages are
    found it has at least 11 n - 1 and at most 211 n - 1 characters: per
    passage up to 200 characters of text and 11 of framing, less the
    final line feed. *)
Theorem report_grounding_payload_length (vector_store : VectorStore)
  (args : GroundingArgs) :
  match flat_map (similarity_search vector_store)
                 (valid_sources (sources args)) with
  | [] => payload (_report_grounding_tool vector_store args) = "1"
  | passages =>
      (11 * length passages
       <= String.length (payload (_report_grounding_tool vector_store args)) + 1
       <= 211 * length passages)%nat
  end.
Proof.
  unfold _report_grounding_tool. cbn [payload].
  rewrite grounding_search_results_flat.
  generalize (flat_map (similarity_search vector_store)
                       (valid_sources (sources args))) as passages.
  intros [|doc rest]; [reflexivity|].
  set (passages := doc :: rest).
  set (results := map _ passages).
  assert (results <> []) as Hne by discriminate.
  pose proof (strip_grounding_text results Hne) as Hstrip.
  apply (f_equal String.length) in Hstrip.
  rewrite append_length in Hstrip.
  change (String.length nl) with 1%nat in Hstrip.
  pose proof (join_length_bound 211 (map grounding_entry results)) as Hupper.
  pose proof (join_length_lower 11 (map grounding_entry results)) as Hlower.
  rewrite length_map in Hupper, Hlower.
  assert (length results = length passages) as Hlen
    by (unfold results; apply length_map).
  rewrite Hlen in Hupper, Hlower.
  specialize (Hupper ltac:(apply Forall_fmap, Forall_forall; intros r _;
                           unfold compose; rewrite grounding_entry_length; lia)).
  specialize (Hlower ltac:(apply Forall_fmap, Forall_forall; intros r _;
                           unfold compose; rewrite grounding_entry_length; lia)).
  lia.
Qed.

Lemma rstrip_head (c : ascii) (s : string) :
  is_space c = false -> exists r : string, rstrip (String c s) = String c r.
Proof.
  intros Hc. simpl. destruct (rstrip s); [rewrite Hc|]; eexists; reflexivity.
Qed.

(** X7: the sentinel "1" is never the text of a result: the payload of
    the search tool is "1" exactly when the search returns nothing, and
    the payload of the grounding tool is "1" exactly when no surviving
    source yields a passage. *)
Theorem sentinel_iff_nothing_found (vector_store : VectorStore) :
  (forall args : SearchArgs,
      payload (_search_tool vector_store args) = "1"
      <-> vector_search (query args) vector_store = [])
  /\ (forall args : GroundingArgs,
        payload (_report_grounding_tool vector_store args) = "1"
        <-> flat_map (similarity_search vector_store)
                     (valid_sources (sources args)) = []).
Proof.
  split; intros args; unfold _search_tool, _report_grounding_tool; simpl.
  - destruct (vector_search (query args) vector_store) as [|doc rest].
    + split; reflexivity.
    + destruct (search_result_str_bracket doc rest) as (s & ->).
      rewrite or_sentinel_bracket. split; discriminate.
  - rewrite grounding_search_results_flat, grounding_result_str_join.
    destruct (flat_map _ _) as [|doc rest]; [split; reflexivity|].
    simpl map.
    match goal with
    | |- context [join (grounding_entry ?r :: ?l)] =>
        destruct (grounding_entry_bracket r (join l)) as (t & Ht);
        change (join (grounding_entry r :: l))
          with (grounding_entry r ++ join l)%string;
        rewrite Ht
    end.
    rewrite or_sentinel_bracket. unfold strip. rewrite lstrip_bracket.
    destruct (rstrip_head "[" t ltac:(reflexivity)) as (r & ->).
    split; discriminate.
Qed.

(** X8: ranks continue across a longer result list: the text formatted
    for the results [first ++ more] is the text formatted for [first]
    followed by the entries of [more], labelled from [len(first)] on. *)
Theorem search_result_str_app (first more : list Document) :
  search_result_str (first ++ more)
    = (search_result_str first
       ++ join (imap (fun i => search_entry (length first + i)) more))%string.
Proof.
  rewrite !search_result_str_join, imap_app, join_app. reflexivity.
Qed.

(** ** Ingestion: what is read and what is kept *)

Lemma elem_of_add_pdf_documents (io : Loader) (pdf_dir : string)
  (chunk_size : Z) (doc : Document) :
  doc ∈ add_pdf_documents io pdf_dir chunk_size <->
  exists (filename : string) (i : nat) (loaded : Document),
    filename ∈ listdir io pdf_dir
    /\ endswith filename ".pdf" = true
    /\ load_and_split io (path_join pdf_dir filename) chunk_size 250 !! i
         = Some loaded
    /\ doc = set_title filename i loaded.
Proof.
  rewrite add_pdf_documents_flat, list_elem_of_In, in_flat_map. split.
  - intros (filename & Hfile & Hdoc). apply list_elem_of_In in Hfile.
    destruct (endswith filename ".pdf") eqn:Hpdf; [|destruct Hdoc].
    apply list_elem_of_In, elem_of_lookup_imap in Hdoc
      as (i & loaded & -> & Hi).
    exists filename, i, loaded. auto.
  - intros (filename & i & loaded & Hfile & Hpdf & Hi & ->).
    exists filename. split; [apply list_elem_of_In; assumption|].
    rewrite Hpdf. apply list_elem_of_In, elem_of_lookup_imap. eauto.
Qed.

(** X9: whatever metadata the loader attached to a chunk is discarded:
    every ingested document has a title and no other metadata key. *)
Theorem add_pdf_documents_metadata (io : Loader) (pdf_dir : string)
  (chunk_size : Z) (doc : Document) :
  doc ∈ add_pdf_documents io pdf_dir chunk_size ->
  is_Some (title doc)
  /\ (forall key : string, key <> "title" -> metadata doc !! key = None).
Proof.
  intros Hdoc.
  apply elem_of_add_pdf_documents in Hdoc as (filename & i & loaded & _ & _ & _ & ->).
  split.
  - rewrite title_set_title. eauto.
  - intros key Hkey. unfold set_title. simpl.
    apply lookup_singleton_ne. congruence.
Qed.

(** X10: only the files whose name ends in ".pdf" are loaded, each with
    the given chunk size and the overlap 250: two loaders with the same
    directory listing that agree on those calls give the same documents. *)
Theorem add_pdf_documents_reads_pdf_only (io1 io2 : Loader) (pdf_dir : string)
  (chunk_size : Z) :
  listdir io1 pdf_dir = listdir io2 pdf_dir ->
  (forall filename : string,
      filename ∈ listdir io1 pdf_dir ->
      endswith filename ".pdf" = true ->
      load_and_split io1 (path_join pdf_dir filename) chunk_size 250
        = load_and_split io2 (path_join pdf_dir filename) chunk_size 250) ->
  add_pdf_documents io1 pdf_dir chunk_size
    = add_pdf_documents io2 pdf_dir chunk_size.
Proof.
  intros Hlist Hload. rewrite !add_pdf_documents_flat, <- Hlist.
  apply flat_map_ext_elem. intros filename Hfile.
  destruct (endswith filename ".pdf") eqn:Hpdf; [|reflexivity].
  rewrite Hload by assumption. reflexivity.
Qed.

Lemma add_pdf_documents_metadata_witness :
  is_Some (title (set_title "a.pdf" 0
                    {| page_content := "docs/a.pdf";
                       metadata := {[ "page" := "0" ]} |}))
  /\ (forall key : string, key <> "title" ->
        metadata (set_title "a.pdf" 0
                    {| page_content := "docs/a.pdf";
                       metadata := {[ "page" := "0" ]} |}) !! key = None).
Proof.
  apply (add_pdf_documents_metadata paged_loader "docs" 1000).
  apply elem_of_add_pdf_documents.
  exists "a.pdf", 0%nat, {| page_content := "docs/a.pdf";
                            metadata := {[ "page" := "0" ]} |}.
  repeat split. apply list_elem_of_here.
Defined.

Lemma add_pdf_documents_reads_pdf_only_witness :
  add_pdf_documents paged_loader "docs" 1000
    = add_pdf_documents paged_loader_pdf "docs" 1000.
Proof.
  apply add_pdf_documents_reads_pdf_only.
  - reflexivity.
  - intros filename Hfile Hpdf.
    apply elem_of_cons in Hfile as [-> | Hfile]; [reflexivity|].
    apply list_elem_of_singleton in Hfile. subst filename. discriminate Hpdf.
Defined.

(** ** Provisioning policies: when a policy is returned *)

Ltac policy_cases :=
  repeat match goal with
         | |- _ /\ _ => split
         | |- _ <-> _ => split
         | |- _ <> _ => intro
         | |- _ -> _ => intro
         | H : exists _, _ |- _ => destruct H
         | H : _ /\ _ |- _ => destruct H
         | H : _ \/ _ |- _ => destruct H
         end;
  first [congruence | eauto | intuition congruence].

(** X11: the index policy builder returns a policy exactly when both its
    lists are non-empty, and the embedding policy builder exactly when all
    four of its lists are; with a non-empty loop list and an empty other
    list they raise [IndexError]. *)
Theorem policies_return_iff :
  (forall embedding_path embedding_type : list value,
      ((exists policy, get_vector_indexing_policy embedding_path embedding_type
                         = Ok policy)
       <-> embedding_path <> [] /\ embedding_type <> [])
      /\ (get_vector_indexing_policy embedding_path embedding_type
            = Raise IndexError
          <-> embedding_path = [] /\ embedding_type <> []))
  /\ (forall embedding_path distance_function data_type dimensions : list value,
        ((exists policy,
             get_vector_embedding_policy embedding_path distance_function
                                         data_type dimensions = Ok policy)
         <-> embedding_path <> [] /\ distance_function <> []
             /\ data_type <> [] /\ dimensions <> [])
        /\ (get_vector_embedding_policy embedding_path distance_function
                                        data_type dimensions = Raise IndexError
            <-> distance_function <> []
                /\ (embedding_path = [] \/ data_type = [] \/ dimensions = []))).
Proof.
  split.
  - intros embedding_path [|t ts].
    + change (get_vector_indexing_policy embedding_path [])
        with (@Raise json (UnboundLocalError "vectorIndexes")).
      policy_cases.
    + rewrite get_vector_indexing_policy_cons.
      destruct embedding_path as [|p ps]; policy_cases.
  - intros embedding_path [|df dfs] data_type dimensions.
    + change (get_vector_embedding_policy embedding_path [] data_type dimensions)
        with (@Raise json (UnboundLocalError "vectorEmbeddings")).
      policy_cases.
    + rewrite get_vector_embedding_policy_cons.
      destruct embedding_path as [|p ps], data_type as [|dt dts],
        dimensions as [|dim dims]; policy_cases.
Qed.

(** ** Attaching with a store that never reuses an id *)

Section FreshStore.

Variable backend : Backend.
Hypothesis fresh_id :
  forall container doc, container !! new_id backend container doc = None.

Lemma from_documents_fresh (documents : list Document)
  (container : gmap string Document) :
  size (from_documents backend documents container)
    = (size container + length documents)%nat
  /\ container ⊆ from_documents backend documents container.
Proof.
  unfold from_documents. revert container.
  induction documents as [|doc documents IH]; intros container; simpl.
  - split; [lia | reflexivity].
  - destruct (IH (<[new_id backend container doc := doc]> container))
      as (Hsize & Hsub).
    rewrite map_size_insert_None in Hsize by apply fresh_id.
    split; [lia|].
    etransitivity; [|exact Hsub].
    apply insert_subseteq, fresh_id.
Qed.

End FreshStore.

(** X12: with a store that writes every document under an id the
    container does not hold, attaching adds exactly one item per ingested
    chunk and leaves every item that was there in place, so every run
    over the same files adds their chunks once more. *)
Theorem attach_fresh_store_grows (backend : Backend) (io : Loader)
  (environ : gmap string string) (pdf_dir : string)
  (container : gmap string Document) (attached : Attached) :
  (forall c doc, c !! new_id backend c doc = None) ->
  attach_rag_tools_cosmosdb backend io environ pdf_dir container = Ok attached ->
  size (vector_store_items attached)
    = (size container
       + length (add_pdf_documents io pdf_dir chunk_size_default))%nat
  /\ container ⊆ vector_store_items attached.
Proof.
  intros Hfresh Hattach. rewrite attach_rag_tools_cosmosdb_eq in Hattach.
  injection Hattach as <-. unfold vector_store_items.
  apply from_documents_fresh, Hfresh.
Qed.

Lemma attach_fresh_store_grows_witness :
  exists attached : Attached,
    attach_rag_tools_cosmosdb fresh_backend paged_loader diskann_environ
                              "docs" ∅ = Ok attached
    /\ size (vector_store_items attached)
         = (size (∅ : gmap string Document)
            + length (add_pdf_documents paged_loader "docs" chunk_size_default))%nat
    /\ ∅ ⊆ vector_store_items attached.
Proof.
  eexists. split; [apply attach_rag_tools_cosmosdb_eq|].
  apply (attach_fresh_store_grows fresh_backend paged_loader diskann_environ
           "docs" ∅).
  - intros c doc. apply not_elem_of_dom, is_fresh.
  - apply attach_rag_tools_cosmosdb_eq.
Defined.

(** ** The credential of the entry point *)

(** X13: the main block never passes [None] as credential: it passes the
    key credential when AZURE_OPENAI_API_KEY is set to a non-empty
    string, and the default credential when the variable is unset or
    empty. *)
Theorem main_credential_cases (environ : gmap string string) :
  main_credential environ <> None
  /\ main_credential environ =
       match environ !! "AZURE_OPENAI_API_KEY" with
       | Some key =>
           if not_ key then Some DefaultAzureCredential
           else Some (AzureKeyCredential (Str key))
       | None => Some DefaultAzureCredential
       end.
Proof.
  unfold main_credential, getenv.
  destruct (environ !! "AZURE_OPENAI_API_KEY") as [[|c key]|];
    split; (discriminate || reflexivity).
Qed.

(** ** Titles identify chunks *)

Lemma to_uint_nonnil (n : nat) : Nat.to_uint n <> Decimal.Nil.
Proof.
  rewrite <- (Unsigned.of_to n) at 1. rewrite Unsigned.to_of.
  apply unorm_nonnil.
Qed.

Lemma str_of_nat_inj (n n' : nat) : str_of_nat n = str_of_nat n' -> n = n'.
Proof.
  unfold str_of_nat. intros H.
  apply (f_equal NilZero.uint_of_string) in H.
  rewrite !NilZero.usu in H by apply to_uint_nonnil.
  injection H as H. apply Unsigned.to_uint_inj, H.
Qed.

Lemma string_of_uint_no_underscore (d : Decimal.uint) (k : nat) :
  String.get k (NilEmpty.string_of_uint d) <> Some "_"%char.
Proof.
  revert k; induction d; intros [|k]; simpl; try discriminate; apply IHd.
Qed.

Lemma str_of_nat_no_underscore (n k : nat) :
  String.get k (str_of_nat n) <> Some "_"%char.
Proof.
  unfold str_of_nat, NilZero.string_of_uint.
  destruct (Nat.to_uint n) eqn:Hd;
    try (rewrite <- Hd; apply string_of_uint_no_underscore).
  destruct k as [|[|k]]; discriminate.
Qed.

Lemma append_cancel_l (p x y : string) :
  (p ++ x)%string = (p ++ y)%string -> x = y.
Proof.
  induction p as [|c p IH]; [trivial|].
  rewrite !append_cons. intros [= H]. apply IH, H.
Qed.

(** A name, the chunk marker and a run of digits: the marker found last
    tells where the name ends. *)
Lemma chunk_title_split (f f' d d' : string) :
  (forall k, String.get k d <> Some "_"%char) ->
  (forall k, String.get k d' <> Some "_"%char) ->
  (f ++ "_chunk_" ++ d)%string = (f' ++ "_chunk_" ++ d')%string ->
  f = f' /\ d = d'.
Proof.
  intros Hd Hd'. revert f'.
  induction f as [|c f IH]; intros [|c' f'] Heq.
  - apply (append_cancel_l "_chunk_") in Heq. subst d'. split; reflexivity.
  - exfalso. apply (Hd (String.length f')).
    rewrite (append_correct2 "_chunk_" d).
    change ("_chunk_" ++ d)%string with ("" ++ "_chunk_" ++ d)%string.
    rewrite Heq.
    replace (String.length f' + String.length "_chunk_")%nat
      with (6 + String.length (String c' f'))%nat by (simpl; lia).
    rewrite <- (append_correct2 (String c' f') ("_chunk_" ++ d')). reflexivity.
  - exfalso. apply (Hd' (String.length f)).
    rewrite (append_correct2 "_chunk_" d').
    change ("_chunk_" ++ d')%string with ("" ++ "_chunk_" ++ d')%string.
    rewrite <- Heq.
    replace (String.length f + String.length "_chunk_")%nat
      with (6 + String.length (String c f))%nat by (simpl; lia).
    rewrite <- (append_correct2 (String c f) ("_chunk_" ++ d)). reflexivity.
  - rewrite !append_cons in Heq. injection Heq as -> Heq.
    destruct (IH f' Heq) as (-> & ->). split; reflexivity.
Qed.

Lemma title_inj (filename filename' : string) (i i' : nat) :
  (filename ++ "_chunk_" ++ str_of_nat i)%string
    = (filename' ++ "_chunk_" ++ str_of_nat i')%string ->
  filename = filename' /\ i = i'.
Proof.
  intros Heq.
  apply chunk_title_split in Heq as (-> & Hi);
    try apply str_of_nat_no_underscore.
  split; [reflexivity | apply str_of_nat_inj, Hi].
Qed.

Lemma NoDup_file_titles (filename : string) (loaded : list Document) :
  NoDup (map title (imap (set_title filename) loaded)).
Proof.
  apply NoDup_alt. intros i j t Hi Hj.
  change (map title ?l) with (title <$> l) in Hi, Hj.
  rewrite list_lookup_fmap, list_lookup_imap in Hi, Hj.
  destruct (loaded !! i) as [di|]; [|discriminate].
  destruct (loaded !! j) as [dj|]; [|discriminate].
  simpl in Hi, Hj. rewrite title_set_title in Hi, Hj.
  rewrite <- Hj in Hi. injection Hi as Hi.
  apply title_inj in Hi. tauto.
Qed.

Lemma NoDup_titles (io : Loader) (pdf_dir : string) (chunk_size : Z) :
  NoDup (listdir io pdf_dir) ->
  NoDup (map title (add_pdf_documents io pdf_dir chunk_size)).
Proof.
  rewrite add_pdf_documents_flat.
  induction (listdir io pdf_dir) as [|filename files IH]; intros Hfiles.
  - constructor.
  - apply NoDup_cons in Hfiles as (Hnew & Hfiles). simpl.
    rewrite map_app. apply NoDup_app. repeat split.
    + destruct (endswith filename ".pdf");
        [apply NoDup_file_titles | constructor].
    + intros t Hhere Hthere.
      destruct (endswith filename ".pdf"); [|inversion Hhere].
      apply list_elem_of_fmap in Hhere as (doc & -> & Hdoc).
      apply elem_of_lookup_imap in Hdoc as (i & loaded & -> & _).
      apply list_elem_of_fmap in Hthere as (doc' & Htitle & Hdoc').
      apply list_elem_of_In, in_flat_map in Hdoc' as (filename' & Hfile' & Hdoc').
      destruct (endswith filename' ".pdf"); [|destruct Hdoc'].
      apply list_elem_of_In, elem_of_lookup_imap in Hdoc'
        as (i' & loaded' & -> & _).
      rewrite !title_set_title in Htitle. injection Htitle as Htitle.
      apply title_inj in Htitle as (-> & _).
      apply Hnew, list_elem_of_In, Hfile'.
    + apply IH, Hfiles.
Qed.

(** X14: when the directory listing names no file twice, the titles of
    the ingested documents are pairwise distinct: a title identifies one
    chunk of one file. *)
Theorem add_pdf_documents_titles_distinct (io : Loader) (pdf_dir : string)
  (chunk_size : Z) :
  NoDup (listdir io pdf_dir) ->
  NoDup (map title (add_pdf_documents io pdf_dir chunk_size)).
Proof. apply NoDup_titles. Qed.

Lemma add_pdf_documents_titles_distinct_witness :
  NoDup (map title (add_pdf_documents manual_loader "../../data" 1000)).
Proof.
  apply add_pdf_documents_titles_distinct.
  apply NoDup_singleton.
Defined.

(** ** Looking chunks up in a store keyed by title *)

Section KeyedLookup.

Variables (backend : Backend) (key : Document -> string).
Hypothesis keyed : forall container doc, new_id backend container doc = key doc.

Lemma from_documents_lookup_other (documents : list Document)
  (container : gmap string Document) (k : string) :
  k ∉ map key documents ->
  from_documents backend documents container !! k = container !! k.
Proof.
  unfold from_documents. revert container.
  induction documents as [|doc documents IH]; intros container Hk; simpl.
  - reflexivity.
  - simpl in Hk. apply not_elem_of_cons in Hk as (Hne & Hk).
    rewrite IH, keyed by assumption. apply lookup_insert_ne. congruence.
Qed.

Lemma from_documents_lookup (documents : list Document)
  (container : gmap string Document) (doc : Document) :
  NoDup (map key documents) ->
  doc ∈ documents ->
  from_documents backend documents container !! key doc = Some doc.
Proof.
  revert container.
  induction documents as [|first documents IH]; intros container Hkeys Hdoc.
  - inversion Hdoc.
  - simpl in Hkeys. apply NoDup_cons in Hkeys as (Hfirst & Hkeys).
    apply elem_of_cons in Hdoc as [-> | Hdoc].
    + change (from_documents backend (first :: documents) container)
        with (from_documents backend documents
                (<[new_id backend container first := first]> container)).
      rewrite from_documents_lookup_other, keyed by assumption.
      apply lookup_insert_eq.
    + apply (IH _ Hkeys Hdoc).
Qed.

End KeyedLookup.

(** X15: with a store that writes every document under its title, and a
    directory listing that names no file twice, every ingested chunk is
    in the container after attaching, under its own title; ids that are
    no title of an ingested chunk hold what they held before. *)
Theorem attach_title_store_lookup (backend : Backend) (io : Loader)
  (environ : gmap string string) (pdf_dir : string)
  (container : gmap string Document) (attached : Attached) :
  (forall c doc, new_id backend c doc = default "" (title doc)) ->
  NoDup (listdir io pdf_dir) ->
  attach_rag_tools_cosmosdb backend io environ pdf_dir container = Ok attached ->
  (forall doc : Document,
      doc ∈ add_pdf_documents io pdf_dir chunk_size_default ->
      exists t : string,
        title doc = Some t /\ vector_store_items attached !! t = Some doc)
  /\ (forall id : string,
        Some id ∉ map title (add_pdf_documents io pdf_dir chunk_size_default) ->
        vector_store_items attached !! id = container !! id).
Proof.
  intros Hkeyed Hfiles Hattach. rewrite attach_rag_tools_cosmosdb_eq in Hattach.
  injection Hattach as <-. unfold vector_store_items.
  set (documents := add_pdf_documents io pdf_dir chunk_size_default).
  assert (forall doc, doc ∈ documents -> title doc = Some (default "" (title doc)))
    as Htitled.
  { intros doc Hdoc.
    apply elem_of_add_pdf_documents in Hdoc as (f & i & loaded & _ & _ & _ & ->).
    rewrite title_set_title. reflexivity. }
  assert (map title documents
          = map Some (map (fun doc => default "" (title doc)) documents))
    as Htitles.
  { rewrite map_map. apply map_ext_in. intros doc Hdoc.
    apply Htitled, list_elem_of_In, Hdoc. }
  split.
  - intros doc Hdoc. exists (default "" (title doc)).
    split; [apply Htitled, Hdoc|].
    apply (from_documents_lookup backend _ Hkeyed); [|exact Hdoc].
    pose proof (NoDup_titles io pdf_dir chunk_size_default Hfiles) as Hnodup.
    fold documents in Hnodup. rewrite Htitles in Hnodup.
    apply (NoDup_fmap_1 Some), Hnodup.
  - intros id Hid.
    apply (from_documents_lookup_other backend _ Hkeyed).
    intros Hin. apply Hid. rewrite Htitles.
    apply (list_elem_of_fmap_2 Some), Hin.
Qed.

Lemma attach_title_store_lookup_witness :
  exists attached : Attached,
    attach_rag_tools_cosmosdb title_backend paged_loader diskann_environ
                              "docs" ∅ = Ok attached
    /\ (forall doc : Document,
          doc ∈ add_pdf_documents paged_loader "docs" chunk_size_default ->
          exists t : string,
            title doc = Some t /\ vector_store_items attached !! t = Some doc)
    /\ (forall id : string,
          Some id ∉ map title (add_pdf_documents paged_loader "docs"
                                                 chunk_size_default) ->
          vector_store_items attached !! id = (∅ : gmap string Document) !! id).
Proof.
  eexists. split; [apply attach_rag_tools_cosmosdb_eq|].
  apply (attach_title_store_lookup title_backend paged_loader diskann_environ
           "docs" ∅).
  - intros c doc. reflexivity.
  - apply NoDup_cons. split; [|apply NoDup_singleton].
    intros Hin. apply list_elem_of_singleton in Hin. discriminate Hin.
  - apply attach_rag_tools_cosmosdb_eq.
Defined.

(** ** Chunking a concatenation *)

Section RangeSplit.

Variables (stop step : Z).
Hypothesis step_pos : 0 < step.

(** Fuel beyond what the loop needs changes nothing. *)
Lemma range_loop_fuel (fuel fuel' : nat) (i : Z) :
  (Z.to_nat (stop - i) <= fuel)%nat -> (Z.to_nat (stop - i) <= fuel')%nat ->
  range_loop fuel i stop step = range_loop fuel' i stop step.
Proof.
  revert fuel' i; induction fuel as [|fuel IH]; intros fuel' i Hfuel Hfuel'.
  - rewrite (range_loop_ge stop step fuel' i) by lia. reflexivity.
  - destruct fuel' as [|fuel'].
    + rewrite (range_loop_ge stop step (S fuel) i) by lia. reflexivity.
    + rewrite !range_loop_unfold by assumption.
      destruct (Z.ltb_spec i stop); [|reflexivity].
      f_equal. apply IH; lia.
Qed.

(** A range cut at an index it visits. *)
Lemma range_loop_cut (q : nat) (fuel : nat) (i : Z) :
  i + Z.of_nat q * step <= stop ->
  (Z.to_nat (stop - i) <= fuel)%nat ->
  range_loop fuel i stop step
    = (range_loop fuel i (i + Z.of_nat q * step) step
       ++ range_loop fuel (i + Z.of_nat q * step) stop step)%list.
Proof.
  revert fuel i; induction q as [|q IH]; intros fuel i Hmid Hfuel.
  - rewrite (range_loop_ge (i + Z.of_nat 0 * step) step fuel i) by lia.
    simpl. f_equal. lia.
  - destruct fuel as [|fuel]; [nia|].
    rewrite (range_loop_unfold stop step step_pos fuel i).
    rewrite (range_loop_unfold (i + Z.of_nat (S q) * step) step step_pos fuel i).
    destruct (Z.ltb_spec i stop); [|nia].
    destruct (Z.ltb_spec i (i + Z.of_nat (S q) * step)); [|nia].
    rewrite (IH fuel (i + step)) by nia.
    replace (i + step + Z.of_nat q * step) with (i + Z.of_nat (S q) * step) by nia.
    rewrite <- app_comm_cons. f_equal. f_equal.
    apply range_loop_fuel; nia.
Qed.

End RangeSplit.

Lemma range_loop_shift (m stop step : Z) (fuel : nat) (i : Z) :
  range_loop fuel (m + i) (m + stop) step
    = map (Z.add m) (range_loop fuel i stop step).
Proof.
  revert i; induction fuel as [|fuel IH]; intros i; simpl; [reflexivity|].
  replace (m + i <? m + stop) with (i <? stop)
    by (destruct (Z.ltb_spec i stop), (Z.ltb_spec (m + i) (m + stop)); lia).
  replace (m + stop <? m + i) with (stop <? i)
    by (destruct (Z.ltb_spec stop i), (Z.ltb_spec (m + stop) (m + i)); lia).
  destruct (if 0 <? step then i <? stop else stop <? i); [|reflexivity].
  simpl. f_equal. rewrite <- IH. f_equal. lia.
Qed.

Lemma substring_append_l (a b : string) (n m : nat) :
  (n + m <= String.length a)%nat ->
  substring n m (a ++ b) = substring n m a.
Proof.
  revert n m; induction a as [|c a IH]; intros n m Hfit.
  - simpl in Hfit. replace n with 0%nat by lia. replace m with 0%nat by lia.
    rewrite !substring_zero_length. reflexivity.
  - rewrite append_cons. destruct n as [|n].
    + destruct m as [|m]; [reflexivity|]. simpl in *.
      rewrite (IH 0%nat m) by lia. reflexivity.
    + simpl in *. apply IH. lia.
Qed.

Lemma substring_append_r (a b : string) (n m : nat) :
  substring (String.length a + n) m (a ++ b) = substring n m b.
Proof.
  induction a as [|c a IH]; [reflexivity|].
  rewrite append_cons. simpl. exact IH.
Qed.

Lemma len_append (a b : string) : len (a ++ b) = len a + len b.
Proof. unfold len. rewrite append_length. lia. Qed.

(** A slice that lies in the first part, and a slice that starts in the
    second part, of a concatenation. *)
Lemma slice_append_l (a b : string) (lo hi : Z) :
  0 <= lo -> lo <= hi -> hi <= len a ->
  slice (a ++ b) lo hi = slice a lo hi.
Proof.
  intros Hlo Hle Hhi. pose proof (len_nonneg b).
  rewrite !slice_inside by lia. rewrite len_append.
  rewrite !Z.min_l by lia.
  apply substring_append_l. unfold len in Hhi. lia.
Qed.

Lemma slice_append_r (a b : string) (lo hi : Z) :
  0 <= lo -> 0 <= hi ->
  slice (a ++ b) (len a + lo) (len a + hi) = slice b lo hi.
Proof.
  intros Hlo Hhi. pose proof (len_nonneg a).
  rewrite !slice_inside by lia. rewrite len_append.
  replace (Z.min (len a + lo) (len a + len b)) with (len a + Z.min lo (len b))
    by lia.
  replace (Z.min (len a + hi) (len a + len b)) with (len a + Z.min hi (len b))
    by lia.
  replace (Z.to_nat (len a + Z.min lo (len b)))
    with (String.length a + Z.to_nat (Z.min lo (len b)))%nat
    by (unfold len; lia).
  rewrite substring_append_r. f_equal. lia.
Qed.

(** X16: chunking distributes over a concatenation whose first part has
    a length that is a multiple of the chunk size: the segments of
    [a + b] are the segments of [a] followed by the segments of [b]. *)
Theorem chunk_text_append (a b : string) (chunk_size : Z) (q : nat) :
  0 < chunk_size ->
  len a = Z.of_nat q * chunk_size ->
  exists sa sb : list string,
    chunk_text a chunk_size = Ok sa
    /\ chunk_text b chunk_size = Ok sb
    /\ chunk_text (a ++ b) chunk_size = Ok (sa ++ sb)%list.
Proof.
  intros Hpos Hmult. rewrite !chunk_text_eq by assumption.
  eexists. eexists. split; [reflexivity|]. split; [reflexivity|]. f_equal.
  pose proof (len_nonneg a) as Ha. pose proof (len_nonneg b) as Hb.
  rewrite len_append.
  rewrite (range_loop_cut (len a + len b) chunk_size Hpos q
             (Z.to_nat (len a + len b)) 0) by lia.
  replace (0 + Z.of_nat q * chunk_size) with (len a) by lia.
  rewrite map_app. f_equal.
  - rewrite (range_loop_fuel (len a) chunk_size Hpos
               (Z.to_nat (len a + len b)) (Z.to_nat (len a)) 0) by lia.
    apply map_ext_in. intros j Hj. apply list_elem_of_In in Hj.
    pose proof (range_loop_bounds (len a) chunk_size Hpos (Z.to_nat (len a)) 0)
      as Hbounds.
    rewrite Forall_forall in Hbounds. specialize (Hbounds j Hj).
    apply list_elem_of_lookup in Hj as (k & Hk).
    apply range_loop_lookup in Hk; [|assumption].
    assert (Z.of_nat k < Z.of_nat q) as Hkq by nia.
    assert ((Z.of_nat k + 1) * chunk_size <= Z.of_nat q * chunk_size) as Hnext
      by (apply Z.mul_le_mono_nonneg_r; lia).
    apply slice_append_l; lia.
  - replace (range_loop (Z.to_nat (len a + len b)) (len a) (len a + len b)
                        chunk_size)
      with (range_loop (Z.to_nat (len a + len b)) (len a + 0) (len a + len b)
                       chunk_size) by (f_equal; lia).
    rewrite range_loop_shift, map_map.
    rewrite (range_loop_fuel (len b) chunk_size Hpos
               (Z.to_nat (len a + len b)) (Z.to_nat (len b)) 0) by lia.
    apply map_ext_in. intros j Hj. apply list_elem_of_In in Hj.
    pose proof (range_loop_bounds (len b) chunk_size Hpos (Z.to_nat (len b)) 0)
      as Hbounds.
    rewrite Forall_forall in Hbounds. specialize (Hbounds j Hj).
    rewrite <- Z.add_assoc. apply slice_append_r; lia.
Qed.

Lemma chunk_text_append_witness :
  exists sa sb : list string,
    chunk_text "abcdef" 3 = Ok sa
    /\ chunk_text "gh" 3 = Ok sb
    /\ chunk_text ("abcdef" ++ "gh") 3 = Ok (sa ++ sb)%list.
Proof.
  apply (chunk_text_append "abcdef" "gh" 3 2); [lia | reflexivity].
Defined.

(** ** Ingesting twice: what the code fixes and what the store decides *)

Lemma add_pdf_documents_titled (io : Loader) (pdf_dir : string)
  (chunk_size : Z) (doc : Document) :
  doc ∈ add_pdf_documents io pdf_dir chunk_size ->
  title doc = Some (default "" (title doc)).
Proof.
  intros Hdoc.
  apply elem_of_add_pdf_documents in Hdoc as (f & i & loaded & _ & _ & _ & ->).
  rewrite title_set_title. reflexivity.
Qed.

Lemma NoDup_title_keys (io : Loader) (pdf_dir : string) (chunk_size : Z) :
  NoDup (listdir io pdf_dir) ->
  NoDup (map (fun doc => default "" (title doc))
             (add_pdf_documents io pdf_dir chunk_size)).
Proof.
  intros Hfiles. apply (NoDup_fmap_1 Some).
  change (Some <$> ?l) with (map Some l). rewrite map_map.
  rewrite (map_ext_in _ title).
  - apply NoDup_titles, Hfiles.
  - intros doc Hdoc. symmetry.
    apply (add_pdf_documents_titled io pdf_dir chunk_size), list_elem_of_In, Hdoc.
Qed.

(** C7 (as the code has it): for each chunk the ingestion code derives
    the title filename + "_chunk_" + str(index), which determines the
    file name and the index, and hands the document to the store with
    that title as its only metadata and with no id; the id is the
    store's choice.  So with a store that writes each document under its
    title, and a listing that names no file twice, a second attach over
    the same files leaves the container, ids and contents, as the first
    left it, every chunk stored under its title; and with a store that
    writes each document under an id the container does not hold, the
    second attach adds every chunk again and keeps what the first wrote. *)
Theorem reingestion_by_store (io : Loader) (environ : gmap string string)
  (pdf_dir : string) (container : gmap string Document) :
  (forall doc : Document,
      doc ∈ add_pdf_documents io pdf_dir chunk_size_default ->
      exists (filename : string) (i : nat),
        filename ∈ listdir io pdf_dir
        /\ title doc = Some (filename ++ "_chunk_" ++ str_of_nat i)%string
        /\ (forall key : string, key <> "title" -> metadata doc !! key = None))
  /\ (forall (filename filename' : string) (i i' : nat),
        (filename ++ "_chunk_" ++ str_of_nat i)%string
          = (filename' ++ "_chunk_" ++ str_of_nat i')%string ->
        filename = filename' /\ i = i')
  /\ (forall (backend : Backend) (first second : Attached),
        (forall c doc, new_id backend c doc = default "" (title doc)) ->
        NoDup (listdir io pdf_dir) ->
        attach_rag_tools_cosmosdb backend io environ pdf_dir container = Ok first ->
        attach_rag_tools_cosmosdb backend io environ pdf_dir
                                  (vector_store_items first) = Ok second ->
        vector_store_items second = vector_store_items first
        /\ (forall doc : Document,
              doc ∈ add_pdf_documents io pdf_dir chunk_size_default ->
              exists t : string,
                title doc = Some t
                /\ vector_store_items second !! t = Some doc))
  /\ (forall (backend : Backend) (first second : Attached),
        (forall c doc, c !! new_id backend c doc = None) ->
        attach_rag_tools_cosmosdb backend io environ pdf_dir container = Ok first ->
        attach_rag_tools_cosmosdb backend io environ pdf_dir
                                  (vector_store_items first) = Ok second ->
        size (vector_store_items second)
          = (size (vector_store_items first)
             + length (add_pdf_documents io pdf_dir chunk_size_default))%nat
        /\ vector_store_items first ⊆ vector_store_items second).
Proof.
  split; [|split; [|split]].
  - intros doc Hdoc.
    apply elem_of_add_pdf_documents in Hdoc
      as (filename & i & loaded & Hfile & _ & _ & ->).
    exists filename, i. split; [exact Hfile|]. split.
    + apply title_set_title.
    + intros key Hkey. unfold set_title. simpl.
      apply lookup_singleton_ne. congruence.
  - intros filename filename' i i'. apply title_inj.
  - intros backend first second Hkeyed Hfiles Hfirst Hsecond.
    rewrite attach_rag_tools_cosmosdb_eq in Hfirst, Hsecond.
    injection Hfirst as <-. injection Hsecond as <-.
    unfold vector_store_items.
    rewrite (from_documents_twice backend _ Hkeyed). split; [reflexivity|].
    intros doc Hdoc. exists (default "" (title doc)). split.
    + apply (add_pdf_documents_titled io pdf_dir chunk_size_default), Hdoc.
    + apply (from_documents_lookup backend _ Hkeyed); [|exact Hdoc].
      apply NoDup_title_keys, Hfiles.
  - intros backend first second Hfresh Hfirst Hsecond.
    rewrite attach_rag_tools_cosmosdb_eq in Hfirst, Hsecond.
    injection Hfirst as <-. injection Hsecond as <-.
    unfold vector_store_items.
    apply from_documents_fresh, Hfresh.
Qed.

Lemma reingestion_by_store_witness :
  (exists first second : Attached,
      attach_rag_tools_cosmosdb title_backend paged_loader diskann_environ
                                "docs" ∅ = Ok first
      /\ attach_rag_tools_cosmosdb title_backend paged_loader diskann_environ
                                   "docs" (vector_store_items first) = Ok second
      /\ vector_store_items second = vector_store_items first)
  /\ (exists first second : Attached,
        attach_rag_tools_cosmosdb fresh_backend paged_loader diskann_environ
                                  "docs" ∅ = Ok first
        /\ attach_rag_tools_cosmosdb fresh_backend paged_loader diskann_environ
                                     "docs" (vector_store_items first) = Ok second
        /\ size (vector_store_items second)
             = (size (vector_store_items first)
                + length (add_pdf_documents paged_loader "docs"
                                            chunk_size_default))%nat).
Proof.
  destruct (reingestion_by_store paged_loader diskann_environ "docs" ∅)
    as (_ & _ & Hkeyed & Hfresh).
  split.
  - eexists. eexists.
    split; [apply attach_rag_tools_cosmosdb_eq|].
    split; [apply attach_rag_tools_cosmosdb_eq|].
    apply (Hkeyed title_backend).
    + intros c doc. reflexivity.
    + apply NoDup_cons. split; [|apply NoDup_singleton].
      intros Hin. apply list_elem_of_singleton in Hin. discriminate Hin.
    + apply attach_rag_tools_cosmosdb_eq.
    + apply attach_rag_tools_cosmosdb_eq.
  - eexists. eexists.
    split; [apply attach_rag_tools_cosmosdb_eq|].
    split; [apply attach_rag_tools_cosmosdb_eq|].
    apply (Hfresh fresh_backend).
    + intros c doc. apply not_elem_of_dom, is_fresh.
    + apply attach_rag_tools_cosmosdb_eq.
    + apply attach_rag_tools_cosmosdb_eq.
Defined.
